(** * Pater_Donate: the redemption-and-ledger pipeline of [DonationService]

    A shallow embedding of [src/models/Donation.js] (the [Donation] schema
    and the [DonationService] class) together with the properties of the
    specification that can be stated over it.

    Conventions of the embedding:
    - a JavaScript string is a [string] (its UTF-8 bytes);
    - a JavaScript exception is an [Error] value carried by [Throw];
    - code that awaits the store, the network or the socket is written in the
      monad [M], which threads the [State] of those collaborators;
    - everything the host decides (environment variables, what the network
      and the store answer, number formatting, the clock) is a field of
      [World];
    - writes to the console are left out: they change nothing that the
      methods or their callers read. *)

From Stdlib Require Import String Ascii List ZArith QArith Qreduction Bool Lia.
From Stdlib Require Import DecimalString.
From Stdlib Require Import Sorted Permutation.
Import ListNotations.

Local Open Scope string_scope.
Set Warnings "-register-all".

(** ** Strings *)

Module Str.

(** [s.length > 0], the truthiness of a string. *)
Definition truthy (s : string) : bool :=
  match s with
  | EmptyString => false
  | String _ _ => true
  end.

(** [a || b] on strings. *)
Definition or (a b : string) : string := if truthy a then a else b.

(** [s.startsWith(p)], returning the rest of [s] after [p]. *)
Fixpoint strip (p s : string) : option string :=
  match p with
  | EmptyString => Some s
  | String c p' =>
      match s with
      | EmptyString => None
      | String x s' => if Ascii.eqb x c then strip p' s' else None
      end
  end.

(** [hay.includes(needle)]. *)
Fixpoint includes (needle hay : string) : bool :=
  match strip needle hay with
  | Some _ => true
  | None =>
      match hay with
      | EmptyString => false
      | String _ hay' => includes needle hay'
      end
  end.

(** Longest prefix of [s] made of characters of the class [cls], and the
    rest. *)
Fixpoint span (cls : ascii -> bool) (s : string) : string * string :=
  match s with
  | EmptyString => (EmptyString, EmptyString)
  | String x s' =>
      if cls x then let (a, b) := span cls s' in (String x a, b)
      else (EmptyString, s)
  end.

Fixpoint all (cls : ascii -> bool) (s : string) : bool :=
  match s with
  | EmptyString => true
  | String x s' => cls x && all cls s'
  end.

Fixpoint rev_onto (s acc : string) : string :=
  match s with
  | EmptyString => acc
  | String x s' => rev_onto s' (String x acc)
  end.

Definition rev (s : string) : string := rev_onto s EmptyString.

End Str.

(** ** Character classes *)

Definition between (lo hi : N) (c : ascii) : bool :=
  (N.leb lo (N_of_ascii c) && N.leb (N_of_ascii c) hi)%N.

(** [[0-9]] *)
Definition digit (c : ascii) : bool := between 48 57 c.

(** [[a-zA-Z0-9]] *)
Definition alnum (c : ascii) : bool :=
  between 97 122 c || between 65 90 c || digit c.

(** ** Exceptions *)

(** A thrown JavaScript error: the two properties the code reads. *)
Record Error := mkError { name : string; message : string }.

Definition new_Error (msg : string) : Error := mkError "Error" msg.
Definition new_TypeError (msg : string) : Error := mkError "TypeError" msg.

(** Outcome of evaluating an expression or a statement list. *)
Inductive completion (A : Type) : Type :=
| Normal (a : A)
| Throw (e : Error).
Arguments Normal {A} a.
Arguments Throw {A} e.

(** Sequencing of pure code that may throw. *)
Definition and_then {A B} (c : completion A) (k : A -> completion B)
  : completion B :=
  match c with
  | Normal a => k a
  | Throw e => Throw e
  end.

(** ** Regular expressions

    The fragment of JavaScript regular expressions that the patterns of
    [extractVoucherHash] use: literal characters, one capturing group of the
    form [([class]+)] (greedy), and the end anchor [$]. *)

Module RegExp.

Inductive atom :=
| Chr (c : ascii)              (* a literal character *)
| Group (cls : ascii -> bool)  (* ([cls]+), capturing, greedy *)
| Eos.                         (* $ without the m flag *)

Definition regex := list atom.

Fixpoint lits (s : string) : regex :=
  match s with
  | EmptyString => []
  | String c s' => Chr c :: lits s'
  end.

(** Greedy [+]: consume one more character of the class, prefer consuming
    further, and fall back to the continuation [k] when the longer attempt
    fails (backtracking). [acc] is what the group has consumed so far. *)
Fixpoint plus (cls : ascii -> bool) (k : string -> string -> option string)
         (s acc : string) : option string :=
  match s with
  | EmptyString => None
  | String x s' =>
      if cls x then
        match plus cls k s' (acc ++ String x EmptyString) with
        | Some g => Some g
        | None => k s' (acc ++ String x EmptyString)
        end
      else None
  end.

(** Match [r] at the start of [s]; [g] is the text of group 1 so far.
    The result is the text of group 1 of the match. *)
Fixpoint exec_here (r : regex) (s g : string) : option string :=
  match r with
  | [] => Some g
  | Chr c :: r' =>
      match s with
      | EmptyString => None
      | String x s' => if Ascii.eqb x c then exec_here r' s' g else None
      end
  | Eos :: r' =>
      match s with
      | EmptyString => exec_here r' s g
      | String _ _ => None
      end
  | Group cls :: r' => plus cls (exec_here r') s EmptyString
  end.

(** [s.match(r)] for a non-global [r]: the leftmost position where [r]
    matches; the result is [match[1]]. *)
Fixpoint exec (r : regex) (s : string) : option string :=
  match exec_here r s EmptyString with
  | Some g => Some g
  | None =>
      match s with
      | EmptyString => None
      | String _ s' => exec r s'
      end
  end.

End RegExp.

(** ** DonationService.extractVoucherHash *)

Import RegExp.

(** [/v=([a-zA-Z0-9]+)/] *)
Definition pattern_v : regex := (lits "v=" ++ [Group alnum])%list.

(** [/\/([a-zA-Z0-9]+)$/] *)
Definition pattern_tail : regex := (lits "/" ++ [Group alnum; Eos])%list.

(** [/gift\.truemoney\.com\/campaign\/\?v=([a-zA-Z0-9]+)/] *)
Definition pattern_campaign : regex :=
  (lits "gift.truemoney.com/campaign/?v=" ++ [Group alnum])%list.

Definition patterns : list regex := [pattern_v; pattern_tail; pattern_campaign].

(** 'รูปแบบลิงก์ไม่ถูกต้อง' *)
Definition InvalidVoucherFormat : Error := new_Error "รูปแบบลิงก์ไม่ถูกต้อง".

(** The [for (const pattern of patterns)] loop: the first pattern with a
    match whose group 1 is truthy returns it. *)
Fixpoint first_match (ps : list regex) (link : string) : completion string :=
  match ps with
  | [] => Throw InvalidVoucherFormat
  | pattern :: ps' =>
      match exec pattern link with
      | Some g => if Str.truthy g then Normal g else first_match ps' link
      | None => first_match ps' link
      end
  end.

(** The body of the method for an arbitrary pattern list; the [catch] clause
    replaces whatever was thrown by a fresh error with the same text. *)
Definition extractVoucherHash_with (ps : list regex) (link : string)
  : completion string :=
  match first_match ps link with
  | Normal h => Normal h
  | Throw _ => Throw InvalidVoucherFormat
  end.

Definition extractVoucherHash (link : string) : completion string :=
  extractVoucherHash_with patterns link.


(** ** Numbers

    A JavaScript number is kept as [NaN], an infinity or the value of a
    finite binary64 number, a rational in lowest terms. What parsing and
    arithmetic produce is rounded to binary64, to nearest and ties to even
    ([Num.round64]). The sign of zero is not kept. *)

Inductive number :=
| NaN
| Infinity (negative : bool)
| Fin (q : Q).

Module Num.

Definition of_Z (z : Z) : number := Fin (inject_Z z).

(** Truthiness: every number but [0] and [NaN]. *)
Definition truthy (n : number) : bool :=
  match n with
  | NaN => false
  | Infinity _ => true
  | Fin q => negb (Qeq_bool q 0)
  end.

(** [n <= 0] *)
Definition le0 (n : number) : bool :=
  match n with
  | NaN => false
  | Infinity negative => negative
  | Fin q => Qle_bool q 0
  end.

(** [a / b] for [a >= 0] and [b > 0], rounded to the nearest integer, a tie
    going to the even one. *)
Definition nearest_even (a b : Z) : Z :=
  let f := (a / b)%Z in
  match (2 * (a mod b) ?= b)%Z with
  | Lt => f
  | Gt => (f + 1)%Z
  | Eq => if Z.even f then f else (f + 1)%Z
  end.

(** The integer part of the binary logarithm of [n / d], for [n, d > 0]. *)
Definition ilog2 (n d : Z) : Z :=
  let k := (Z.log2 n - Z.log2 d)%Z in
  let below :=
    if (0 <=? k)%Z then (n <? d * 2 ^ k)%Z else (n * 2 ^ (- k) <? d)%Z in
  if below then (k - 1)%Z else k.

(** The binary64 number nearest to [n / d], for [n, d > 0]: a significand of
    at most 53 bits at a unit in the last place [2^e] with [e >= -1074];
    an infinity from [2^1024] on. *)
Definition round64_pos (n d : Z) : number :=
  let e := Z.max (ilog2 n d - 52) (-1074) in
  if (0 <=? e)%Z then
    let m := nearest_even n (d * 2 ^ e) in
    if (2 ^ 1024 <=? m * 2 ^ e)%Z then Infinity false
    else Fin (inject_Z (m * 2 ^ e))
  else
    let m := nearest_even (n * 2 ^ (- e)) d in
    Fin (Qred (Qmake m (Z.to_pos (2 ^ (- e))))).

(** The binary64 number nearest to a rational. *)
Definition round64 (q : Q) : number :=
  match Qnum q with
  | Z0 => Fin 0
  | Zpos n => round64_pos (Zpos n) (Zpos (Qden q))
  | Zneg n =>
      match round64_pos (Zpos n) (Zpos (Qden q)) with
      | Fin r => Fin (- r)
      | Infinity _ => Infinity true
      | NaN => NaN
      end
  end.

(** [a + b] *)
Definition add (a b : number) : number :=
  match a, b with
  | NaN, _ | _, NaN => NaN
  | Infinity x, Infinity y => if Bool.eqb x y then Infinity x else NaN
  | Infinity x, Fin _ | Fin _, Infinity x => Infinity x
  | Fin p, Fin q => round64 (p + q)
  end.

(** [a / n] for a positive count [n]. *)
Definition div_count (a : number) (n : positive) : number :=
  match a with
  | Fin p => round64 (p / inject_Z (Zpos n))
  | _ => a
  end.

(** The larger of two numbers in the store's sort order, where [NaN] is
    below every number. *)
Definition max (a b : number) : number :=
  match a, b with
  | NaN, _ => b
  | _, NaN => a
  | Infinity false, _ | _, Infinity false => Infinity false
  | Infinity true, _ => b
  | _, Infinity true => a
  | Fin p, Fin q => if Qle_bool p q then b else a
  end.

End Num.

(** ** Values

    What [response.json()] can produce, plus [undefined], which property
    reads produce. An object is the list of its own properties, each name
    once. *)

Inductive value :=
| VUndefined
| VNull
| VBool (b : bool)
| VNumber (n : number)
| VString (s : string)
| VArray (items : list value)
| VObject (props : list (string * value)).

Module Val.

Definition truthy (v : value) : bool :=
  match v with
  | VUndefined | VNull => false
  | VBool b => b
  | VNumber n => Num.truthy n
  | VString s => Str.truthy s
  | VArray _ | VObject _ => true
  end.

Fixpoint lookup (k : string) (props : list (string * value)) : value :=
  match props with
  | [] => VUndefined
  | (k', v) :: rest => if String.eqb k' k then v else lookup k rest
  end.

(** [Object.hasOwn(v, k)] on the property list of an object. *)
Definition has_own (k : string) (props : list (string * value)) : bool :=
  existsb (fun kv => String.eqb (fst kv) k) props.

(** [v?.k]. Only the property names that [callTrueMoneyAPI] reads are ever
    passed; none of them exists on a primitive or on an array, and none is
    inherited by an object. *)
Definition opt (v : value) (k : string) : value :=
  match v with
  | VObject props => lookup k props
  | _ => VUndefined
  end.

(** [v.k], which throws on [null] and [undefined]. *)
Definition get (v : value) (k : string) : completion value :=
  match v with
  | VUndefined =>
      Throw (new_TypeError
        ("Cannot read properties of undefined (reading '" ++ k ++ "')"))
  | VNull =>
      Throw (new_TypeError
        ("Cannot read properties of null (reading '" ++ k ++ "')"))
  | _ => Normal (opt v k)
  end.

(** [v == null] *)
Definition nullish (v : value) : bool :=
  match v with
  | VUndefined | VNull => true
  | _ => false
  end.

(** [v === true] *)
Definition is_true (v : value) : bool :=
  match v with
  | VBool true => true
  | _ => false
  end.

(** [v === s] for a string literal [s] *)
Definition is_string (s : string) (v : value) : bool :=
  match v with
  | VString s' => String.eqb s' s
  | _ => false
  end.

End Val.

(** ** White space and [parseFloat] *)

(** The UTF-8 encodings of the characters that [trim] and [parseFloat] skip:
    TAB, LF, VT, FF, CR, SP, U+00A0, U+1680, U+2000..U+200A, U+2028, U+2029,
    U+202F, U+205F, U+3000, U+FEFF. *)
Definition utf8 (bytes : list N) : string :=
  string_of_list_ascii (map ascii_of_N bytes).

Definition white_space : list string :=
  map utf8
    [ [9]; [10]; [11]; [12]; [13]; [32]; [194; 160]; [225; 154; 128];
      [226; 128; 128]; [226; 128; 129]; [226; 128; 130]; [226; 128; 131];
      [226; 128; 132]; [226; 128; 133]; [226; 128; 134]; [226; 128; 135];
      [226; 128; 136]; [226; 128; 137]; [226; 128; 138]; [226; 128; 168];
      [226; 128; 169]; [226; 128; 175]; [226; 129; 159]; [227; 128; 128];
      [239; 187; 191] ]%N.

Fixpoint strip_any (ps : list string) (s : string) : option string :=
  match ps with
  | [] => None
  | p :: ps' =>
      match Str.strip p s with
      | Some s' => Some s'
      | None => strip_any ps' s
      end
  end.

Fixpoint strip_all (fuel : nat) (ps : list string) (s : string) : string :=
  match fuel with
  | O => s
  | S fuel' =>
      match strip_any ps s with
      | Some s' => strip_all fuel' ps s'
      | None => s
      end
  end.

(** [s.trimStart()] *)
Definition trimStart (s : string) : string :=
  strip_all (String.length s) white_space s.

(** [s.trimEnd()] *)
Definition trimEnd (s : string) : string :=
  Str.rev (strip_all (String.length s) (map Str.rev white_space) (Str.rev s)).

(** [s.trim()] *)
Definition trim (s : string) : string := trimEnd (trimStart s).

Fixpoint digits_value (s : string) (acc : Z) : Z :=
  match s with
  | EmptyString => acc
  | String c s' => digits_value s' (10 * acc + (Z.of_N (N_of_ascii c) - 48))
  end.

(** An optional sign: whether it is [-], and the rest. *)
Definition sign (s : string) : bool * string :=
  match s with
  | String "+" s' => (false, s')
  | String "-" s' => (true, s')
  | _ => (false, s)
  end.

(** The exponent part [e[+-]digits], or 0 when [s] does not start with a
    complete one. *)
Definition exponent (s : string) : Z :=
  match s with
  | String c s' =>
      if Ascii.eqb c "e" || Ascii.eqb c "E" then
        let (neg, r) := sign s' in
        let (ds, _) := Str.span digit r in
        if Str.truthy ds
        then (if neg then - digits_value ds 0 else digits_value ds 0)%Z
        else 0%Z
      else 0%Z
  | EmptyString => 0%Z
  end.

(** [m * 10^e] as a number: the binary64 number nearest to it. Beyond the
    range of binary64 the answer is given without computing the power: with
    [e > 400] the value is above [2^1024]; and as [|m| < 10^(log2 |m| / 3 + 1)],
    with [log2 |m| / 3 + 1 + e < -400] it is below [2^-1075]. *)
Definition scale (m e : Z) : number :=
  if (m =? 0)%Z then Fin 0
  else if (400 <? e)%Z then Infinity (m <? 0)%Z
  else if (Z.log2 (Z.abs m) / 3 + 1 + e <? -400)%Z then Fin 0
  else Num.round64 (inject_Z m * Qpower (inject_Z 10) e).

(** [parseFloat] of a string: skip leading white space, then read the
    longest prefix that is a [StrDecimalLiteral]. *)
Definition parseFloat_string (s : string) : number :=
  let (neg, u) := sign (trimStart s) in
  match Str.strip "Infinity" u with
  | Some _ => Infinity neg
  | None =>
      let (ip, r1) := Str.span digit u in
      let (fp, r2) :=
        match r1 with
        | String "." r => Str.span digit r
        | _ => (EmptyString, r1)
        end in
      if Str.truthy ip || Str.truthy fp then
        let m := digits_value (ip ++ fp) 0 in
        scale (if neg then - m else m) (exponent r2 - Z.of_nat (String.length fp))
      else NaN
  end.

(** [String(v)], with [fmt] the host's [Number.prototype.toString]. An
    object whose own property [toString] hides the inherited method has no
    primitive value, and the conversion throws. *)
Fixpoint ToString (fmt : number -> string) (v : value) : completion string :=
  match v with
  | VUndefined => Normal "undefined"
  | VNull => Normal "null"
  | VBool true => Normal "true"
  | VBool false => Normal "false"
  | VNumber n => Normal (fmt n)
  | VString s => Normal s
  | VArray items =>
      (fix join (l : list value) : completion string :=
         match l with
         | [] => Normal ""
         | x :: rest =>
             and_then
               match x with
               | VUndefined | VNull => Normal ""
               | _ => ToString fmt x
               end
               (fun e =>
                  match rest with
                  | [] => Normal e
                  | _ :: _ => and_then (join rest) (fun r => Normal (e ++ "," ++ r))
                  end)
         end) items
  | VObject props =>
      if Val.has_own "toString" props
      then Throw (new_TypeError "Cannot convert object to primitive value")
      else Normal "[object Object]"
  end.

(** [parseFloat(v)]: the argument is converted to a string first. *)
Definition parseFloat (fmt : number -> string) (v : value) : completion number :=
  and_then (ToString fmt v) (fun s => Normal (parseFloat_string s)).

(** ** The Donation model (donationSchema) *)

Module Donation.

(** [enum: ['pending', 'completed', 'failed']] *)
Inductive Status := pending | completed | failed.

Definition Status_eqb (a b : Status) : bool :=
  match a, b with
  | pending, pending | completed, completed | failed, failed => true
  | _, _ => false
  end.

(** A document: the paths of the schema and [_id]. *)
Record t := mk {
  _id : string;
  donorName : string;
  amount : number;
  message : string;
  voucherHash : string;
  voucherLink : string;
  ipAddress : string;
  status : Status;
  timestamp : Z
}.

(** The object literal handed to [new Donation(...)] by the two call
    sites of [processDonation]. *)
Record init := mk_init {
  i_donorName : string;
  i_amount : number;
  i_message : string;
  i_voucherHash : string;
  i_voucherLink : string;
  i_ipAddress : string;
  i_status : Status;
  i_apiResponse : option value;
  i_errorMessage : option string
}.

(** [new Donation(i)]: [donorName] and [message] are trimmed
    ([trim: true]), [timestamp] takes its default [Date.now], and
    [apiResponse] and [errorMessage], which are not paths of the schema,
    are dropped. *)
Definition create (id : string) (now : Z) (i : init) : t :=
  {| _id := id;
     donorName := trim (i_donorName i);
     amount := i_amount i;
     message := trim (i_message i);
     voucherHash := i_voucherHash i;
     voucherLink := i_voucherLink i;
     ipAddress := i_ipAddress i;
     status := i_status i;
     timestamp := now |}.

Definition is_completed (d : t) : bool := Status_eqb (status d) completed.

Definition has_hash (h : string) (d : t) : bool := String.eqb (voucherHash d) h.

End Donation.

(** ** Collaborators *)

(** The body posted to the redemption endpoint. *)
Record Payload := mkPayload { voucherCode : string; mobileNumber : string }.

(** What the code reads of a [fetch] response. *)
Record Response := mkResponse {
  status : Z;
  text : completion string;   (* await response.text() *)
  json : completion value     (* await response.json() *)
}.

(** [response.ok] *)
Definition ok (r : Response) : bool := (200 <=? status r)%Z && (status r <=? 299)%Z.

(** The payload of a [new-donation] event. *)
Module Event.
Record t := mk {
  id : string;
  donorName : string;
  amount : number;
  message : string;
  timestamp : Z
}.
End Event.

(** Everything the host and the outside world decide during one call. *)
Record World := mkWorld {
  TRUEMONEY_MOBILE : option string;          (* process.env.TRUEMONEY_MOBILE *)
  fetch : Payload -> completion Response;    (* await fetch(...): a response, or
                                                a rejection; the rejection when
                                                the 30 s timer aborts the call
                                                is named AbortError *)
  findOne_fault : option Error;              (* Donation.findOne rejects *)
  find_fault : option Error;                 (* Donation.find rejects *)
  aggregate_fault : option Error;            (* Donation.aggregate rejects *)
  save_fault : Donation.t -> option Error;   (* doc.save() rejects: validation
                                                of the schema, or the store *)
  Date_now : Z;
  new_ObjectId : string;
  Number_toString : number -> string;
  Number_toLocaleString : number -> string
}.

(** The collaborators' state: the collection, the requests sent to the
    redemption endpoint, the events emitted on the socket. *)
Record State := mkState {
  ledger : list Donation.t;
  requests : list Payload;
  emitted : list (string * Event.t)
}.

(** The three ways in which the methods change the collaborators. *)
Definition with_record (doc : Donation.t) (st : State) : State :=
  {| ledger := ledger st ++ [doc];
     requests := requests st;
     emitted := emitted st |}.

Definition with_request (payload : Payload) (st : State) : State :=
  {| ledger := ledger st;
     requests := requests st ++ [payload];
     emitted := emitted st |}.

Definition with_event (event : string) (payload : Event.t) (st : State) : State :=
  {| ledger := ledger st;
     requests := requests st;
     emitted := emitted st ++ [(event, payload)] |}.

(** ** The monad of the asynchronous methods *)

Definition M (A : Type) : Type := State -> completion A * State.

Definition ret {A} (a : A) : M A := fun st => (Normal a, st).

Definition throw {A} (e : Error) : M A := fun st => (Throw e, st).

Definition lift {A} (c : completion A) : M A := fun st => (c, st).

Definition bind {A B} (m : M A) (k : A -> M B) : M B :=
  fun st =>
    match m st with
    | (Normal a, st') => k a st'
    | (Throw e, st') => (Throw e, st')
    end.

(** [try { body } catch (error) { handler }]: what [body] did to the
    collaborators before it threw stays done. *)
Definition try_catch {A} (body : M A) (handler : Error -> M A) : M A :=
  fun st =>
    match body st with
    | (Normal a, st') => (Normal a, st')
    | (Throw e, st') => handler e st'
    end.

Declare Scope js_scope.
Delimit Scope js_scope with js.
Notation "x <- m ;; k" := (bind m (fun x => k))
  (at level 61, m at next level, right associativity) : js_scope.
Notation "m ;; k" := (bind m (fun _ => k))
  (at level 61, right associativity) : js_scope.
Notation "x <~ c ;; k" := (and_then c (fun x => k))
  (at level 61, c at next level, right associativity) : js_scope.
Local Open Scope js_scope.

(** ** Store operations (the Mongoose model's contract) *)

(** [Donation.findOne({ voucherHash })] *)
Definition findOne (w : World) (voucherHash : string) : M (option Donation.t) :=
  fun st =>
    match findOne_fault w with
    | Some e => (Throw e, st)
    | None => (Normal (find (Donation.has_hash voucherHash) (ledger st)), st)
    end.

(** [doc.save()]: the store may reject the write; otherwise the unique index
    on [voucherHash] decides, and the document is appended. *)
Definition save (w : World) (doc : Donation.t) : M unit :=
  fun st =>
    match save_fault w doc with
    | Some e => (Throw e, st)
    | None =>
        if existsb (Donation.has_hash (Donation.voucherHash doc)) (ledger st)
        then (Throw (mkError "MongoServerError"
                       ("E11000 duplicate key error: voucherHash "
                        ++ Donation.voucherHash doc)), st)
        else (Normal tt, with_record doc st)
    end.

(** [this.io.emit(event, payload)] *)
Definition emit (event : string) (payload : Event.t) : M unit :=
  fun st => (Normal tt, with_event event payload st).

(** [await fetch(this.baseURL, { ... body: JSON.stringify(payload) ... })] *)
Definition do_fetch (w : World) (payload : Payload) : M Response :=
  fun st => (fetch w payload, with_request payload st).

(** ** DonationService.isDuplicateVoucher *)

Definition isDuplicateVoucher (w : World) (voucherHash : string) : M bool :=
  existing <- findOne w voucherHash ;;
  ret (match existing with Some _ => true | None => false end).

(** ** DonationService.callTrueMoneyAPI *)

(** [v.k?.k1?.k2 ...] *)
Definition read_opt (v : value) (k : string) (ks : list string)
  : completion value :=
  x <~ Val.get v k ;; Normal (fold_left Val.opt ks x).

(** [v.k1.k2 ...] *)
Fixpoint read (v : value) (ks : list string) : completion value :=
  match ks with
  | [] => Normal v
  | k :: ks' => x <~ Val.get v k ;; read x ks'
  end.

(** [const isSuccess = data.success === true || ... || (data.data && data.data.voucher)] *)
Definition isSuccess (data : value) : completion value :=
  success <~ read data ["success"] ;;
  if Val.is_true success then Normal (VBool true) else
  status <~ read data ["status"] ;;
  if Val.is_string "success" status then Normal (VBool true) else
  code <~ read_opt data "status" ["code"] ;;
  if Val.is_string "SUCCESS" code then Normal (VBool true) else
  message <~ read_opt data "status" ["message"] ;;
  if Val.is_string "success" message then Normal (VBool true) else
  d <~ read data ["data"] ;;
  if Val.truthy d then read data ["data"; "voucher"] else Normal d.

(** [const errorMsg = data.message || data.error || data.status?.message || '...'] *)
Definition errorMsg (data : value) : completion value :=
  message <~ read data ["message"] ;;
  if Val.truthy message then Normal message else
  error <~ read data ["error"] ;;
  if Val.truthy error then Normal error else
  status_message <~ read_opt data "status" ["message"] ;;
  if Val.truthy status_message then Normal status_message else
  Normal (VString "ไม่สามารถแลกซองอังเปาได้").

(** The chain that assigns [amount], starting from [let amount = 0]. *)
Definition extract_amount (w : World) (data : value) : completion number :=
  f1 <~ read_opt data "data" ["voucher"; "amount_baht"] ;;
  if Val.truthy f1 then
    x <~ read data ["data"; "voucher"; "amount_baht"] ;;
    parseFloat (Number_toString w) x
  else
  f2 <~ read_opt data "data" ["voucher"; "redeemed_amount_baht"] ;;
  if Val.truthy f2 then
    x <~ read data ["data"; "voucher"; "redeemed_amount_baht"] ;;
    parseFloat (Number_toString w) x
  else
  f3 <~ read_opt data "data" ["my_ticket"; "amount_baht"] ;;
  if Val.truthy f3 then
    x <~ read data ["data"; "my_ticket"; "amount_baht"] ;;
    parseFloat (Number_toString w) x
  else
  f4 <~ read data ["amount_bath"] ;;
  if Val.truthy f4 then
    x <~ read data ["amount_bath"] ;; parseFloat (Number_toString w) x
  else
  f5 <~ read data ["amount"] ;;
  if Val.truthy f5 then
    x <~ read data ["amount"] ;; parseFloat (Number_toString w) x
  else
  f6 <~ read data ["value"] ;;
  if Val.truthy f6 then
    x <~ read data ["value"] ;; parseFloat (Number_toString w) x
  else
  Normal (Fin 0).

(** 'ไม่พบจำนวนเงินในซองอังเปา หรือซองอังเปาไม่ถูกต้อง' *)
Definition InvalidAmount : Error :=
  new_Error "ไม่พบจำนวนเงินในซองอังเปา หรือซองอังเปาไม่ถูกต้อง".

(** 'การเชื่อมต่อ API หมดเวลา กรุณาลองใหม่อีกครั้ง' *)
Definition UpstreamTimeout : Error :=
  new_Error "การเชื่อมต่อ API หมดเวลา กรุณาลองใหม่อีกครั้ง".

(** 'กรุณาตั้งค่า TRUEMONEY_MOBILE ใน environment variables' *)
Definition ConfigurationError : Error :=
  new_Error "กรุณาตั้งค่า TRUEMONEY_MOBILE ใน environment variables".

(** From [const data = await response.json()] on: the success probe, the
    rejection, the amount chain and the amount check. *)
Definition normalize (w : World) (data : value) : completion (number * value) :=
  success <~ isSuccess data ;;
  if negb (Val.truthy success) then
    msg <~ errorMsg data ;;
    text <~ ToString (Number_toString w) msg ;;
    Throw (new_Error text)
  else
    amount <~ extract_amount w data ;;
    if negb (Num.truthy amount) || Num.le0 amount
    then Throw InvalidAmount
    else Normal (amount, data).

Definition callTrueMoneyAPI (w : World) (voucherHash : string)
  : M (number * value) :=
  match TRUEMONEY_MOBILE w with
  | None | Some EmptyString => throw ConfigurationError
  | Some mobile =>
      let payload := {| voucherCode := voucherHash; mobileNumber := mobile |} in
      try_catch
        (response <- do_fetch w payload ;;
         if negb (ok response) then
           errorText <- lift (text response) ;;
           throw (new_Error ("API Error: "
                             ++ Number_toString w (Num.of_Z (status response))
                             ++ " - " ++ errorText))
         else
           data <- lift (json response) ;;
           lift (normalize w data))
        (fun error =>
           if String.eqb (name error) "AbortError"
           then throw UpstreamTimeout
           else throw error)
  end.

(** ** DonationService.processDonation *)

(** The argument object of [processDonation]. *)
Module Claim.
Record t := mk {
  voucherLink : string;
  donorName : string;
  message : string;
  ipAddress : string
}.
End Claim.

(** The object [processDonation] resolves to. *)
Module Result.
Record t := mk {
  success : bool;
  message : string;
  data : option Event.t
}.
End Result.

(** 'ลิงก์นี้ถูกใช้งานไปแล้ว' *)
Definition DuplicateVoucher : Error := new_Error "ลิงก์นี้ถูกใช้งานไปแล้ว".

(** [s.catch(() => '')] on a string [s]: strings have no [catch] method, so
    the call throws. *)
Definition string_catch (s : string) : completion string :=
  Throw (new_TypeError "this.extractVoucherHash(...).catch is not a function").

(** The template literal of the success message. *)
Definition thanks (w : World) (donorName : string) (amount : number) : string :=
  "ขอบคุณ " ++ donorName ++ " สำหรับการบริจาค "
  ++ Number_toLocaleString w amount ++ " บาท!".

(** The [try] block of [processDonation]. *)
Definition processDonation_try (w : World) (c : Claim.t) : M Result.t :=
  voucherHash <- lift (extractVoucherHash (Claim.voucherLink c)) ;;
  duplicate <- isDuplicateVoucher w voucherHash ;;
  if duplicate then throw DuplicateVoucher else
  redeemed <- callTrueMoneyAPI w voucherHash ;;
  let (amount, apiData) := redeemed in
  let donation :=
    Donation.create (new_ObjectId w) (Date_now w)
      {| Donation.i_donorName := Claim.donorName c;
         Donation.i_amount := amount;
         Donation.i_message := Claim.message c;
         Donation.i_voucherHash := voucherHash;
         Donation.i_voucherLink := Claim.voucherLink c;
         Donation.i_ipAddress := Claim.ipAddress c;
         Donation.i_status := Donation.completed;
         Donation.i_apiResponse := Some apiData;
         Donation.i_errorMessage := None |} in
  save w donation ;;
  let donationData :=
    {| Event.id := Donation._id donation;
       Event.donorName := Donation.donorName donation;
       Event.amount := Donation.amount donation;
       Event.message := Donation.message donation;
       Event.timestamp := Donation.timestamp donation |} in
  emit "new-donation" donationData ;;
  ret {| Result.success := true;
         Result.message := thanks w (Claim.donorName c) amount;
         Result.data := Some donationData |}.

(** The [catch (error)] block of [processDonation]: the attempt to save a
    failed record, itself inside a [try] whose [catch] only logs, then the
    failed result. The object literal of the record is evaluated property
    by property, [voucherHash] before the constructor is called. *)
Definition processDonation_catch (w : World) (c : Claim.t) (error : Error)
  : M Result.t :=
  try_catch
    (hash <- lift (s <~ extractVoucherHash (Str.or (Claim.voucherLink c) "") ;;
                   string_catch s) ;;
     let errorDonation :=
       Donation.create (new_ObjectId w) (Date_now w)
         {| Donation.i_donorName := Claim.donorName c;
            Donation.i_amount := Fin 0;
            Donation.i_message := Claim.message c;
            Donation.i_voucherHash := hash;
            Donation.i_voucherLink := Claim.voucherLink c;
            Donation.i_ipAddress := Claim.ipAddress c;
            Donation.i_status := Donation.failed;
            Donation.i_apiResponse := None;
            Donation.i_errorMessage := Some (message error) |} in
     save w errorDonation)
    (fun saveError => ret tt) ;;
  ret {| Result.success := false;
         Result.message := message error;
         Result.data := None |}.

Definition processDonation (w : World) (c : Claim.t) : M Result.t :=
  try_catch (processDonation_try w c) (processDonation_catch w c).

(** ** DonationService.getRecentDonations *)

(** What [.select('donorName amount message timestamp -_id').lean()] keeps. *)
Module Recent.
Record t := mk {
  donorName : string;
  amount : number;
  message : string;
  timestamp : Z
}.

Definition of_doc (d : Donation.t) : t :=
  {| donorName := Donation.donorName d;
     amount := Donation.amount d;
     message := Donation.message d;
     timestamp := Donation.timestamp d |}.
End Recent.

(** [.sort({ timestamp: -1 })] *)
Fixpoint insert_desc (d : Donation.t) (l : list Donation.t) : list Donation.t :=
  match l with
  | [] => [d]
  | x :: l' =>
      if (Donation.timestamp x <=? Donation.timestamp d)%Z
      then d :: l
      else x :: insert_desc d l'
  end.

Definition sort_desc (l : list Donation.t) : list Donation.t :=
  fold_right insert_desc [] l.

(** [.limit(n)]: 0 means no limit, a negative [n] counts as [-n]. *)
Definition limit_to (n : Z) (l : list Donation.t) : list Donation.t :=
  if (n =? 0)%Z then l else firstn (Z.abs_nat n) l.

(** [Donation.find({ status: 'completed' }).sort(...).limit(limit).select(...).lean()] *)
Definition find_recent (w : World) (limit : Z) : M (list Recent.t) :=
  fun st =>
    match find_fault w with
    | Some e => (Throw e, st)
    | None =>
        (Normal (map Recent.of_doc
                   (limit_to limit
                      (sort_desc (filter Donation.is_completed (ledger st))))),
         st)
    end.

Definition getRecentDonations (w : World) (limit : Z) : M (list Recent.t) :=
  try_catch
    (donations <- find_recent w limit ;; ret donations)
    (fun error => ret []).

(** ** DonationService.getDonationStats *)

Module Stats.
Record t := mk {
  totalAmount : number;
  totalDonations : number;
  averageAmount : number;
  topDonation : number;
  lastDonation : option Z
}.

(** The object literal returned when there is nothing to report. *)
Definition zero : t :=
  {| totalAmount := Fin 0;
     totalDonations := Fin 0;
     averageAmount := Fin 0;
     topDonation := Fin 0;
     lastDonation := None |}.
End Stats.

(** The [$group] stage with [_id: null]: no input documents, no group;
    otherwise the single group over all of them. *)
Definition group_all (ds : list Donation.t) : list Stats.t :=
  match ds with
  | [] => []
  | d :: rest =>
      let total := fold_left Num.add (map Donation.amount rest) (Donation.amount d) in
      [ {| Stats.totalAmount := total;
           Stats.totalDonations := Num.of_Z (Z.of_nat (length ds));
           Stats.averageAmount := Num.div_count total (Pos.of_nat (length ds));
           Stats.topDonation :=
             fold_left Num.max (map Donation.amount rest) (Donation.amount d);
           Stats.lastDonation :=
             Some (fold_left Z.max (map Donation.timestamp rest)
                     (Donation.timestamp d)) |} ]
  end.

(** [Donation.aggregate([{ $match: { status: 'completed' } }, { $group: ... }])] *)
Definition aggregate (w : World) : M (list Stats.t) :=
  fun st =>
    match aggregate_fault w with
    | Some e => (Throw e, st)
    | None => (Normal (group_all (filter Donation.is_completed (ledger st))), st)
    end.

Definition getDonationStats (w : World) : M Stats.t :=
  try_catch
    (stats <- aggregate w ;;
     ret (match nth_error stats 0 with
          | Some s => s
          | None => Stats.zero
          end))
    (fun error => ret Stats.zero).

(** ** A host for the examples

    Integers are printed in decimal by both formatting functions, which is
    what the examples need; no fault occurs anywhere; the redemption
    endpoint answers what [answer] says. *)

Definition print_integer (n : number) : string :=
  match n with
  | NaN => "NaN"
  | Infinity negative => if negative then "-Infinity" else "Infinity"
  | Fin q => NilZero.string_of_int (Z.to_int (Qnum q / Zpos (Qden q)))
  end.

Definition host (answer : completion Response) : World :=
  {| TRUEMONEY_MOBILE := Some "0812345678";
     fetch := fun _ => answer;
     findOne_fault := None;
     find_fault := None;
     aggregate_fault := None;
     save_fault := fun _ => None;
     Date_now := 1700000000000;
     new_ObjectId := "65a000000000000000000001";
     Number_toString := print_integer;
     Number_toLocaleString := print_integer |}.

Definition json_ok (data : value) : completion Response :=
  Normal {| status := 200; text := Normal ""; json := Normal data |}.

Definition empty : State := {| ledger := []; requests := []; emitted := [] |}.

(** [{ success: true, data: { voucher: { amount_baht: "50" } } }] *)
Definition fifty : value :=
  VObject [("success", VBool true);
           ("data", VObject [("voucher", VObject [("amount_baht", VString "50")])])].

Definition alice : Claim.t :=
  {| Claim.voucherLink := "https://x/campaign/?v=ABC123";
     Claim.donorName := "Alice";
     Claim.message := "";
     Claim.ipAddress := "203.0.113.7" |}.

(** ** The locator rules, as the specification words them

    A rule is a fixed text followed by one or more alphanumeric characters,
    which the rule captures; the trailing-segment rule also requires the
    captured characters to end the link. The text may stand anywhere in the
    link. *)

Record Rule := mkRule { lead : string; to_end : bool }.

(** Rule 1: a [v=] followed by alphanumerics. *)
Definition rule_v : Rule := {| lead := "v="; to_end := false |}.

(** Rule 2: a trailing path segment of alphanumerics. *)
Definition rule_tail : Rule := {| lead := "/"; to_end := true |}.

(** Rule 3: the campaign URL with its [v] parameter. *)
Definition rule_campaign : Rule :=
  {| lead := "gift.truemoney.com/campaign/?v="; to_end := false |}.

(** The rules in the order in which they are applied. *)
Definition rules : list Rule := [rule_v; rule_tail; rule_campaign].

(** [link] reads [pre], the rule's text, the alphanumeric group [h], then
    [post]. *)
Definition Occurs (r : Rule) (link pre h post : string) : Prop :=
  link = pre ++ lead r ++ h ++ post
  /\ h <> ""
  /\ Str.all alnum h = true
  /\ (to_end r = true -> post = "").

Definition Matches (r : Rule) (link : string) : Prop :=
  exists pre h post, Occurs r link pre h post.

(** [h] is the group of the leftmost occurrence of the rule in [link], and
    the longest group at that place. *)
Definition Captures (r : Rule) (link h : string) : Prop :=
  exists pre post,
    Occurs r link pre h post
    /\ forall pre' h' post',
         Occurs r link pre' h' post' ->
         (String.length pre < String.length pre')%nat
         \/ (String.length pre = String.length pre'
             /\ (String.length h' <= String.length h)%nat).

(** The pattern a rule stands for. *)
Definition regex_of (r : Rule) : regex :=
  (lits (lead r) ++ Group alnum :: (if to_end r then [Eos] else []))%list.

(** ** The steps of the pipeline, named

    [processDonation_try] runs Locate, Duplicate check and Redeem, then
    Persist and Publish. The first three steps and the record that Persist
    saves are named here so that properties can speak about them. *)

Definition locate_check_redeem (w : World) (c : Claim.t)
  : M (string * (number * value)) :=
  voucherHash <- lift (extractVoucherHash (Claim.voucherLink c)) ;;
  duplicate <- isDuplicateVoucher w voucherHash ;;
  if duplicate then throw DuplicateVoucher else
  redeemed <- callTrueMoneyAPI w voucherHash ;;
  ret (voucherHash, redeemed).

(** The [donation] that the [try] block saves. *)
Definition completed_donation (w : World) (c : Claim.t) (voucherHash : string)
           (amount : number) (apiData : value) : Donation.t :=
  Donation.create (new_ObjectId w) (Date_now w)
    {| Donation.i_donorName := Claim.donorName c;
       Donation.i_amount := amount;
       Donation.i_message := Claim.message c;
       Donation.i_voucherHash := voucherHash;
       Donation.i_voucherLink := Claim.voucherLink c;
       Donation.i_ipAddress := Claim.ipAddress c;
       Donation.i_status := Donation.completed;
       Donation.i_apiResponse := Some apiData;
       Donation.i_errorMessage := None |}.

(** The [donationData] that the [try] block emits and returns. *)
Definition event_of (d : Donation.t) : Event.t :=
  {| Event.id := Donation._id d;
     Event.donorName := Donation.donorName d;
     Event.amount := Donation.amount d;
     Event.message := Donation.message d;
     Event.timestamp := Donation.timestamp d |}.

(** The object returned by the [catch] block. *)
Definition failed_result (error : Error) : Result.t :=
  {| Result.success := false;
     Result.message := message error;
     Result.data := None |}.

(** The object returned at the end of the [try] block. *)
Definition success_result (w : World) (c : Claim.t) (amount : number)
           (d : Donation.t) : Result.t :=
  {| Result.success := true;
     Result.message := thanks w (Claim.donorName c) amount;
     Result.data := Some (event_of d) |}.

(** ** Calls in flight

    Between two [await]s a call runs alone; at an [await] other calls may
    run. The ledger is read at the lookup and written at the save, so a call
    in flight is before its lookup, between lookup and redemption, between
    redemption and save, or has returned. [advance] runs a call to its next
    such point; the [catch] block, which changes nothing, is taken into the
    step that throws. *)

Inductive Progress :=
| Submitted
| Redeeming (voucherHash : string)
| Persisting (voucherHash : string) (amount : number) (apiData : value)
| Returned (r : Result.t).

Definition advance (w : World) (c : Claim.t) (p : Progress) (st : State)
  : Progress * State :=
  match p with
  | Submitted =>
      match extractVoucherHash (Claim.voucherLink c) with
      | Throw e => (Returned (failed_result e), st)
      | Normal h =>
          match isDuplicateVoucher w h st with
          | (Throw e, st') => (Returned (failed_result e), st')
          | (Normal true, st') => (Returned (failed_result DuplicateVoucher), st')
          | (Normal false, st') => (Redeeming h, st')
          end
      end
  | Redeeming h =>
      match callTrueMoneyAPI w h st with
      | (Throw e, st') => (Returned (failed_result e), st')
      | (Normal (a, d), st') => (Persisting h a d, st')
      end
  | Persisting h a d =>
      match save w (completed_donation w c h a d) st with
      | (Throw e, st') => (Returned (failed_result e), st')
      | (Normal _, st') =>
          (Returned (success_result w c a (completed_donation w c h a d)),
           with_event "new-donation" (event_of (completed_donation w c h a d)) st')
      end
  | Returned r => (Returned r, st)
  end.

(** Two calls in flight, advanced in the order a schedule gives: [true]
    advances the first call, [false] the second. *)
Fixpoint interleave (w1 w2 : World) (c1 c2 : Claim.t) (schedule : list bool)
         (p1 p2 : Progress) (st : State) : Progress * Progress * State :=
  match schedule with
  | [] => (p1, p2, st)
  | true :: rest =>
      let (p1', st') := advance w1 c1 p1 st in
      interleave w1 w2 c1 c2 rest p1' p2 st'
  | false :: rest =>
      let (p2', st') := advance w2 c2 p2 st in
      interleave w1 w2 c1 c2 rest p1 p2' st'
  end.

(** What is known of a call for [link] at each point: the hash it works on
    is the one located in the link, and once it has returned a success the
    ledger holds a record with that hash. *)
Definition settled (link : string) (p : Progress) (st : State) : Prop :=
  match p with
  | Submitted => True
  | Redeeming h | Persisting h _ _ => extractVoucherHash link = Normal h
  | Returned r =>
      Result.success r = true ->
      exists h, extractVoucherHash link = Normal h
                /\ existsb (Donation.has_hash h) (ledger st) = true
  end.

(** Two calls have not both returned a success. *)
Definition exclusive (p1 p2 : Progress) : Prop :=
  match p1, p2 with
  | Returned r1, Returned r2 => Result.success r1 && Result.success r2 = false
  | _, _ => True
  end.

(** ** The amount probes, as the specification words them

    The six places where the amount is looked for, in priority order, each
    as the path of property names from the response. *)

Definition probe_order : list (list string) :=
  [ ["data"; "voucher"; "amount_baht"];           (* nested voucher amount *)
    ["data"; "voucher"; "redeemed_amount_baht"];  (* nested voucher redeemed amount *)
    ["data"; "my_ticket"; "amount_baht"];         (* nested alternate-ticket amount *)
    ["amount_bath"];                              (* top-level misspelled amount *)
    ["amount"];                                   (* top-level amount *)
    ["value"] ].                                  (* top-level value *)

(** The value found at a path, [undefined] when the path breaks off. *)
Definition field (data : value) (path : list string) : value :=
  fold_left Val.opt path data.

(** ** Sample responses and hosts *)

(** [{ success: true, data: { voucher: { amount_baht: 0 } }, amount: 50 }] *)
Definition zero_nested : value :=
  VObject [("success", VBool true);
           ("data", VObject [("voucher", VObject [("amount_baht", VNumber (Fin 0))])]);
           ("amount", VNumber (Fin 50))].

(** [{ success: true, data: { voucher: { amount_baht: "0" } } }] *)
Definition worthless : value :=
  VObject [("success", VBool true);
           ("data", VObject [("voucher", VObject [("amount_baht", VString "0")])])].

(** The timer fired: [fetch] rejects with an [AbortError]. *)
Definition aborted : completion Response :=
  Throw (mkError "AbortError" "This operation was aborted").

(** A host whose store rejects every write. *)
Definition host_write_down (answer : completion Response) : World :=
  {| TRUEMONEY_MOBILE := Some "0812345678";
     fetch := fun _ => answer;
     findOne_fault := None;
     find_fault := None;
     aggregate_fault := None;
     save_fault := fun _ => Some (mkError "MongoNetworkError" "connection closed");
     Date_now := 1700000000000;
     new_ObjectId := "65a000000000000000000001";
     Number_toString := print_integer;
     Number_toLocaleString := print_integer |}.

(** A host whose store rejects every read. *)
Definition host_read_down : World :=
  {| TRUEMONEY_MOBILE := Some "0812345678";
     fetch := fun _ => aborted;
     findOne_fault := Some (mkError "MongoNetworkError" "connection closed");
     find_fault := Some (mkError "MongoNetworkError" "connection closed");
     aggregate_fault := Some (mkError "MongoNetworkError" "connection closed");
     save_fault := fun _ => None;
     Date_now := 1700000000000;
     new_ObjectId := "65a000000000000000000001";
     Number_toString := print_integer;
     Number_toLocaleString := print_integer |}.

(** [w] with another answer of the store to writes. *)
Definition with_save_fault (w : World) (f : Donation.t -> option Error) : World :=
  {| TRUEMONEY_MOBILE := TRUEMONEY_MOBILE w;
     fetch := fetch w;
     findOne_fault := findOne_fault w;
     find_fault := find_fault w;
     aggregate_fault := aggregate_fault w;
     save_fault := f;
     Date_now := Date_now w;
     new_ObjectId := new_ObjectId w;
     Number_toString := Number_toString w;
     Number_toLocaleString := Number_toLocaleString w |}.

(** The request that redeeming [alice]'s voucher sends from [host]. *)
Definition alice_request : Payload :=
  {| voucherCode := "ABC123"; mobileNumber := "0812345678" |}.

(** A ledger whose only record is not completed. *)
Definition unfinished : State :=
  {| ledger :=
       [ {| Donation._id := "65a000000000000000000000";
            Donation.donorName := "Bob";
            Donation.amount := Fin 0;
            Donation.message := "";
            Donation.voucherHash := "XYZ789";
            Donation.voucherLink := "https://x/campaign/?v=XYZ789";
            Donation.ipAddress := "203.0.113.8";
            Donation.status := Donation.pending;
            Donation.timestamp := 1690000000000 |} ];
     requests := [];
     emitted := [] |}.

(** ** Further notions used by the properties *)

(** The places where the text of a rejection is looked for, in priority
    order: [data.message], [data.error], [data.status?.message]. *)
Definition rejection_order : list (list string) :=
  [ ["message"]; ["error"]; ["status"; "message"] ].

(** 'ไม่สามารถแลกซองอังเปาได้' *)
Definition UpstreamRejected : Error := new_Error "ไม่สามารถแลกซองอังเปาได้".

(** A number that passes [!amount || amount <= 0]. *)
Definition positive (n : number) : Prop :=
  n = Infinity false \/ exists q, n = Fin q /\ (0 < q)%Q.

(** What the schema and the pipeline promise of a ledger: no two records
    share a voucher hash, and a completed record has a positive amount. *)
Definition ledger_ok (l : list Donation.t) : Prop :=
  NoDup (map Donation.voucherHash l)
  /\ forall d, In d l -> Donation.status d = Donation.completed ->
               positive (Donation.amount d).

(** Calls of [processDonation] one after the other, each with what the
    host answers during it. *)
Fixpoint run_all (calls : list (World * Claim.t)) (st : State) : State :=
  match calls with
  | [] => st
  | (w, c) :: rest => run_all rest (snd (processDonation w c st))
  end.

(** [a] is listed before [b] by [.sort({ timestamp: -1 })]. *)
Definition not_older (a b : Donation.t) : Prop :=
  (Donation.timestamp b <= Donation.timestamp a)%Z.

(** [{ success: false, data: { voucher: { amount_baht: "20" } } }] *)
Definition flag_false_with_voucher : value :=
  VObject [("success", VBool false);
           ("data", VObject [("voucher", VObject [("amount_baht", VString "20")])])].

(** [{ success: false, error: "Voucher expired", status: { message: "FAIL" } }] *)
Definition expired : value :=
  VObject [("success", VBool false);
           ("error", VString "Voucher expired");
           ("status", VObject [("message", VString "FAIL")])].

(** A 502 answer whose body is not JSON. *)
Definition bad_gateway : completion Response :=
  Normal {| status := 502;
            text := Normal "Bad Gateway";
            json := Throw (mkError "SyntaxError" "Unexpected token B in JSON") |}.

(** A host without the account variable. *)
Definition host_unconfigured : World :=
  {| TRUEMONEY_MOBILE := None;
     fetch := fun _ => json_ok fifty;
     findOne_fault := None;
     find_fault := None;
     aggregate_fault := None;
     save_fault := fun _ => None;
     Date_now := 1700000000000;
     new_ObjectId := "65a000000000000000000001";
     Number_toString := print_integer;
     Number_toLocaleString := print_integer |}.

(** The state after [alice]'s donation of 50 on [host]. *)
Definition after_alice : State :=
  snd (processDonation (host (json_ok fifty)) alice empty).

(** A later claim for another voucher, from a later host. *)
Definition bob : Claim.t :=
  {| Claim.voucherLink := "https://gift.truemoney.com/campaign/?v=XyZ42";
     Claim.donorName := "  Bob ";
     Claim.message := " hi ";
     Claim.ipAddress := "203.0.113.9" |}.

Definition host_later (answer : completion Response) : World :=
  {| TRUEMONEY_MOBILE := Some "0812345678";
     fetch := fun _ => answer;
     findOne_fault := None;
     find_fault := None;
     aggregate_fault := None;
     save_fault := fun _ => None;
     Date_now := 1700000060000;
     new_ObjectId := "65a000000000000000000002";
     Number_toString := print_integer;
     Number_toLocaleString := print_integer |}.

(** ** Induction on values, through the items of arrays *)

Section value_induction.
Variable P : value -> Prop.
Hypothesis P_undefined : P VUndefined.
Hypothesis P_null : P VNull.
Hypothesis P_bool : forall b, P (VBool b).
Hypothesis P_number : forall n, P (VNumber n).
Hypothesis P_string : forall s, P (VString s).
Hypothesis P_array : forall items, Forall P items -> P (VArray items).
Hypothesis P_object : forall props, P (VObject props).

Fixpoint value_induction (v : value) : P v :=
  match v with
  | VUndefined => P_undefined
  | VNull => P_null
  | VBool b => P_bool b
  | VNumber n => P_number n
  | VString s => P_string s
  | VArray items =>
      P_array items
        ((fix all (l : list value) : Forall P l :=
            match l with
            | [] => Forall_nil P
            | x :: rest => Forall_cons x (value_induction x) (all rest)
            end) items)
  | VObject props => P_object props
  end.
End value_induction.

(** ** The first locator rule, as a query parameter

    [h] is the value of a query parameter named [v] of [link]: the text
    [v=] right after the [?] or an [&] that starts a parameter, then the
    letters and digits [h], then the end of the link or a character that is
    neither. *)
Definition query_parameter_v (link h : string) : Prop :=
  exists pre sep post,
    link = pre ++ sep ++ "v=" ++ h ++ post
    /\ (sep = "?" \/ sep = "&")
    /\ h <> ""
    /\ Str.all alnum h = true
    /\ (forall c rest, post = String c rest -> alnum c = false).

(** The error of a conversion to a primitive value that finds no method. *)
Definition NotPrimitive : Error :=
  new_TypeError "Cannot convert object to primitive value".

(** [{ success: true, data: { voucher: { amount_baht: { toString: "x" } } } }] *)
Definition unconvertible : value :=
  VObject [("success", VBool true);
           ("data",
            VObject [("voucher",
                      VObject [("amount_baht",
                                VObject [("toString", VString "x")])])])].

(** [{ success: true, data: { voucher: { amount_baht: "1e-400" } } }] *)
Definition vanishing : value :=
  VObject [("success", VBool true);
           ("data", VObject [("voucher", VObject [("amount_baht", VString "1e-400")])])].

(** * Properties *)

(** ** The definitions at work *)

Example extract_campaign :
  extractVoucherHash "https://x/campaign/?v=ABC123" = Normal "ABC123".
Proof. reflexivity. Qed.

Example extract_tail :
  extractVoucherHash "https://gift.truemoney.com/abc/0Xyz9" = Normal "0Xyz9".
Proof. reflexivity. Qed.

Example extract_leftmost :
  extractVoucherHash "https://x/?dev=7&v=ABC123" = Normal "7".
Proof. reflexivity. Qed.

Example extract_no_group :
  extractVoucherHash "https://gift.truemoney.com/campaign/?v="
  = Throw InvalidVoucherFormat.
Proof. reflexivity. Qed.

Example parseFloat_examples :
  map parseFloat_string ["50"; "  -12.50e1x"; ".5"; "5."; "1e"; "-Infinity"; "abc"; ""]
  = [Fin 50; Fin (-125); Fin (1 # 2); Fin 5; Fin 1; Infinity true; NaN; NaN].
Proof. reflexivity. Qed.

Example parseFloat_rounds :
  map parseFloat_string
    ["0.1"; "1e-400"; "1e400"; "-1e400"; "9007199254740993"; "1e999999999"]
  = [Fin (3602879701896397 # 36028797018963968); Fin 0; Infinity false;
     Infinity true; Fin 9007199254740992; Infinity false].
Proof. vm_compute. reflexivity. Qed.

Example trim_example : trim (utf8 [32; 9; 65; 32; 66; 194; 160; 10]%N) = "A B".
Proof. reflexivity. Qed.

Example timeout_scenario :
  processDonation (host aborted) alice empty
  = (Normal (failed_result UpstreamTimeout), with_request alice_request empty).
Proof. reflexivity. Qed.

Example stats_after_one_donation :
  fst (getDonationStats (host aborted)
         (snd (processDonation (host (json_ok fifty)) alice empty)))
  = Normal {| Stats.totalAmount := Fin 50;
              Stats.totalDonations := Fin 1;
              Stats.averageAmount := Fin 50;
              Stats.topDonation := Fin 50;
              Stats.lastDonation := Some 1700000000000%Z |}.
Proof. reflexivity. Qed.

(** ** Strings *)

Lemma append_assoc (a b c : string) : (a ++ b) ++ c = a ++ b ++ c.
Proof. induction a as [|x a IH]; simpl; [reflexivity | now rewrite IH]. Qed.

Lemma append_empty_r (a : string) : a ++ "" = a.
Proof. induction a as [|x a IH]; simpl; [reflexivity | now rewrite IH]. Qed.

Lemma append_length (a b : string) :
  String.length (a ++ b) = (String.length a + String.length b)%nat.
Proof. induction a as [|x a IH]; simpl; [reflexivity | now rewrite IH]. Qed.

Lemma append_same_length (a c b d : string) :
  a ++ b = c ++ d -> String.length a = String.length c -> a = c /\ b = d.
Proof.
  revert c. induction a as [|x a IH]; intros [|y c] E L; simpl in *;
    try discriminate.
  - now split.
  - injection E as -> E. injection L as L.
    destruct (IH c E L) as [-> ->]. now split.
Qed.

Lemma truthy_iff (s : string) : Str.truthy s = true <-> s <> "".
Proof. destruct s; simpl; split; congruence. Qed.

Lemma strip_iff (p s rest : string) : Str.strip p s = Some rest <-> s = p ++ rest.
Proof.
  revert s. induction p as [|c p IH]; intros s; simpl.
  - split; congruence.
  - destruct s as [|x s]; [split; discriminate|].
    destruct (Ascii.eqb_spec x c) as [->|N].
    + rewrite IH. split; congruence.
    + split; [discriminate | congruence].
Qed.

Lemma strip_app (p rest : string) : Str.strip p (p ++ rest) = Some rest.
Proof. now apply strip_iff. Qed.

Lemma includes_app (needle pre post : string) :
  Str.includes needle (pre ++ needle ++ post) = true.
Proof.
  induction pre as [|x pre IH]; simpl.
  - destruct (needle ++ post) eqn:E; simpl; rewrite <- E, strip_app; reflexivity.
  - destruct (Str.strip needle (String x (pre ++ needle ++ post))); [reflexivity|].
    exact IH.
Qed.

(** [span] splits its argument, its first part is in the class, and the
    second part does not start in the class. *)
Lemma span_spec (cls : ascii -> bool) (s : string) :
  s = fst (Str.span cls s) ++ snd (Str.span cls s)
  /\ Str.all cls (fst (Str.span cls s)) = true
  /\ (forall h post, s = h ++ post -> Str.all cls h = true ->
      (String.length h <= String.length (fst (Str.span cls s)))%nat).
Proof.
  induction s as [|x s (E & A & L)]; simpl.
  - repeat split. intros [|y h] post H _; simpl in *; [lia | discriminate].
  - destruct (cls x) eqn:C.
    + destruct (Str.span cls s) as [a b]; simpl in *. repeat split.
      * now rewrite <- E.
      * now rewrite C.
      * intros [|y h] post H Hh; simpl in *; [lia|].
        injection H as <- H. apply andb_true_iff in Hh as [_ Hh].
        specialize (L h post H Hh). lia.
    + simpl. repeat split.
      intros [|y h] post H Hh; simpl in *; [lia|].
      injection H as <- _. rewrite C in Hh. discriminate.
Qed.

(** The fuel [trimStart] gives to [strip_all] is enough: what it returns
    does not start with white space. *)
Lemma strip_shorter (p s rest : string) :
  p <> "" -> Str.strip p s = Some rest ->
  (String.length rest < String.length s)%nat.
Proof.
  intros N H. apply strip_iff in H. subst s. rewrite append_length.
  destruct p; simpl; [congruence | lia].
Qed.

Lemma strip_any_shorter (ps : list string) (s rest : string) :
  Forall (fun p => p <> "") ps -> strip_any ps s = Some rest ->
  (String.length rest < String.length s)%nat.
Proof.
  induction 1 as [|p ps N _ IH]; simpl; [discriminate|].
  destruct (Str.strip p s) eqn:E; [|exact IH].
  intros [= ->]. eapply strip_shorter; eauto.
Qed.

Lemma strip_all_done (ps : list string) (fuel : nat) :
  Forall (fun p => p <> "") ps ->
  forall s, (String.length s <= fuel)%nat ->
            strip_any ps (strip_all fuel ps s) = None.
Proof.
  intros N. induction fuel as [|fuel IH]; intros s L; simpl.
  - destruct s; simpl in L; [|lia].
    destruct (strip_any ps "") eqn:E; [|reflexivity].
    apply (strip_any_shorter _ _ _ N) in E. simpl in E. lia.
  - destruct (strip_any ps s) eqn:E; [|exact E].
    apply IH. apply (strip_any_shorter _ _ _ N) in E. lia.
Qed.

Lemma trimStart_done (s : string) : strip_any white_space (trimStart s) = None.
Proof.
  apply strip_all_done; [|apply Nat.le_refl].
  unfold white_space. repeat (constructor; [discriminate|]). constructor.
Qed.

(** ** The matcher against the rules *)

Lemma exec_here_lits (p : string) (r : regex) (s g : string) :
  exec_here (lits p ++ r)%list s g =
  match Str.strip p s with
  | Some rest => exec_here r rest g
  | None => None
  end.
Proof.
  revert s. induction p as [|c p IH]; intros s; simpl; [reflexivity|].
  destruct s as [|x s]; [reflexivity|].
  destruct (Ascii.eqb x c); [apply IH | reflexivity].
Qed.

(** With nothing after the group, [+] takes the longest run. *)
Lemma plus_last (cls : ascii -> bool) (s acc : string) :
  plus cls (exec_here []) s acc =
  if Str.truthy (fst (Str.span cls s))
  then Some (acc ++ fst (Str.span cls s))
  else None.
Proof.
  revert acc. induction s as [|x s IH]; intros acc; simpl; [reflexivity|].
  destruct (cls x); [|reflexivity].
  rewrite IH. destruct (Str.span cls s) as [a b]; simpl.
  destruct a; simpl; now rewrite ?append_assoc.
Qed.

(** Before [$], [+] must take everything: backtracking to a shorter run
    leaves characters before the end. *)
Lemma plus_eos (cls : ascii -> bool) (s acc : string) :
  plus cls (exec_here [Eos]) s acc =
  if Str.truthy s && Str.all cls s then Some (acc ++ s) else None.
Proof.
  revert acc. induction s as [|x s IH]; intros acc; simpl; [reflexivity|].
  destruct (cls x); [|reflexivity].
  rewrite IH. destruct s as [|y s]; simpl; [reflexivity|].
  destruct (cls y && Str.all cls s); [|reflexivity].
  now rewrite append_assoc.
Qed.

Lemma exec_here_rule (r : Rule) (s : string) :
  exec_here (regex_of r) s "" =
  match Str.strip (lead r) s with
  | None => None
  | Some rest =>
      if to_end r
      then (if Str.truthy rest && Str.all alnum rest then Some rest else None)
      else (if Str.truthy (fst (Str.span alnum rest))
            then Some (fst (Str.span alnum rest)) else None)
  end.
Proof.
  unfold regex_of. rewrite exec_here_lits.
  destruct (Str.strip (lead r) s) as [rest|]; [|reflexivity].
  destruct (to_end r); simpl.
  - apply plus_eos.
  - apply plus_last.
Qed.

Lemma Occurs_here (r : Rule) (s h post : string) :
  Occurs r s "" h post -> exec_here (regex_of r) s "" <> None.
Proof.
  intros (E & Hne & Hall & Hend). simpl in E.
  rewrite exec_here_rule, E, strip_app.
  destruct (to_end r).
  - rewrite (Hend eq_refl), append_empty_r, Hall.
    apply truthy_iff in Hne. rewrite Hne. discriminate.
  - destruct (span_spec alnum (h ++ post)) as (_ & _ & L).
    specialize (L h post eq_refl Hall).
    destruct (fst (Str.span alnum (h ++ post))); simpl in *; [|discriminate].
    destruct h; simpl in *; [congruence | lia].
Qed.

Lemma here_Occurs (r : Rule) (s h : string) :
  exec_here (regex_of r) s "" = Some h ->
  exists post,
    Occurs r s "" h post
    /\ forall h' post', Occurs r s "" h' post' ->
                        (String.length h' <= String.length h)%nat.
Proof.
  rewrite exec_here_rule.
  destruct (Str.strip (lead r) s) as [rest|] eqn:S; [|discriminate].
  apply strip_iff in S. subst s.
  destruct (to_end r) eqn:T.
  - destruct (Str.truthy rest && Str.all alnum rest) eqn:C; [|discriminate].
    intros [= <-]. apply andb_true_iff in C as [C1 C2]. exists "".
    split.
    + repeat split; simpl; rewrite ?append_empty_r; auto. now apply truthy_iff.
    + intros h' post' (E & _ & _ & Hend). simpl in E.
      rewrite T in Hend. rewrite (Hend eq_refl), append_empty_r in E.
      apply append_same_length in E as [_ ->]; auto.
  - destruct (span_spec alnum rest) as (E & A & L).
    destruct (Str.truthy (fst (Str.span alnum rest))) eqn:C; [|discriminate].
    intros [= <-]. exists (snd (Str.span alnum rest)). split.
    + repeat split; simpl; auto.
      * now rewrite <- E.
      * now apply truthy_iff.
      * rewrite T. discriminate.
    + intros h' post' (E' & _ & A' & _). simpl in E'.
      apply append_same_length in E' as [_ E']; auto.
      exact (L h' post' E' A').
Qed.

Lemma Occurs_cons (r : Rule) (x : ascii) (s pre h post : string) :
  Occurs r s pre h post <-> Occurs r (String x s) (String x pre) h post.
Proof.
  unfold Occurs; simpl. split; intros (E & H); split; auto; congruence.
Qed.

Lemma exec_Captures (r : Rule) (s h : string) :
  exec (regex_of r) s = Some h -> Captures r s h.
Proof.
  induction s as [|x s IH]; simpl.
  - destruct (exec_here (regex_of r) "" "") as [g|] eqn:H; [|discriminate].
    intros [= ->]. apply here_Occurs in H as (post & O & L).
    exists "", post. split; [exact O|].
    intros [|y pre'] h' post' O'; [right | left; simpl; lia].
    split; [reflexivity | eapply L; eauto].
  - destruct (exec_here (regex_of r) (String x s) "") as [g|] eqn:H.
    + intros [= ->]. apply here_Occurs in H as (post & O & L).
      exists "", post. split; [exact O|].
      intros [|y pre'] h' post' O'; [right | left; simpl; lia].
      split; [reflexivity | eapply L; eauto].
    + intros H'. destruct (IH H') as (pre & post & O & L).
      exists (String x pre), post. split; [now apply Occurs_cons|].
      intros [|y pre'] h' post' O'.
      * apply Occurs_here in O'. congruence.
      * assert (y = x) as -> by (destruct O' as (E & _); simpl in E; congruence).
        apply Occurs_cons in O'. specialize (L _ _ _ O'). simpl. lia.
Qed.

Lemma exec_no_match (r : Rule) (s : string) :
  exec (regex_of r) s = None -> ~ Matches r s.
Proof.
  induction s as [|x s IH]; simpl.
  - destruct (exec_here (regex_of r) "" "") eqn:H; [discriminate|].
    intros _ ([|y pre] & h & post & O).
    + apply Occurs_here in O. congruence.
    + destruct O as (E & _). discriminate.
  - destruct (exec_here (regex_of r) (String x s) "") eqn:H; [discriminate|].
    intros H' ([|y pre] & h & post & O).
    + apply Occurs_here in O. congruence.
    + assert (y = x) as -> by (destruct O as (E & _); simpl in E; congruence).
      apply Occurs_cons in O. apply (IH H'). now exists pre, h, post.
Qed.

Lemma Captures_Matches (r : Rule) (s h : string) : Captures r s h -> Matches r s.
Proof. intros (pre & post & O & _). now exists pre, h, post. Qed.

Lemma Captures_truthy (r : Rule) (s h : string) :
  Captures r s h -> Str.truthy h = true.
Proof. intros (pre & post & (_ & N & _) & _). now apply truthy_iff. Qed.

(** A rule captures at most one group in a link. *)
Lemma Captures_unique (r : Rule) (s h1 h2 : string) :
  Captures r s h1 -> Captures r s h2 -> h1 = h2.
Proof.
  intros (pre1 & post1 & O1 & L1) (pre2 & post2 & O2 & L2).
  destruct (L1 _ _ _ O2) as [A | [A A']], (L2 _ _ _ O1) as [B | [B B']];
    try lia.
  destruct O1 as (E1 & _), O2 as (E2 & _). rewrite E1 in E2.
  apply append_same_length in E2 as [_ E2]; auto.
  apply append_same_length in E2 as [_ E2]; auto.
  apply append_same_length in E2 as [E2 _]; [exact E2 | lia].
Qed.

Lemma Matches_exec (r : Rule) (s : string) :
  Matches r s -> exists h, exec (regex_of r) s = Some h.
Proof.
  intros H. destruct (exec (regex_of r) s) as [h|] eqn:E; [now exists h|].
  now apply exec_no_match in E.
Qed.

(** The matcher computes exactly the group a rule captures. *)
Lemma exec_iff (r : Rule) (s h : string) :
  exec (regex_of r) s = Some h <-> Captures r s h.
Proof.
  split; [apply exec_Captures|].
  intros C. destruct (Matches_exec r s (Captures_Matches _ _ _ C)) as (h' & E).
  rewrite E. f_equal. apply exec_Captures in E.
  eapply Captures_unique; eauto.
Qed.

Lemma exec_none_iff (r : Rule) (s : string) :
  exec (regex_of r) s = None <-> ~ Matches r s.
Proof.
  split; [apply exec_no_match|].
  intros N. destruct (exec (regex_of r) s) as [h|] eqn:E; [|reflexivity].
  apply exec_Captures, Captures_Matches in E. contradiction.
Qed.

(** ** The voucher locator *)

Lemma patterns_rules : patterns = map regex_of rules.
Proof. reflexivity. Qed.

Lemma first_match_captures (link : string) (before : list Rule) :
  forall (r : Rule) (after : list Rule) (h : string),
    (forall r', In r' before -> ~ Matches r' link) ->
    Captures r link h ->
    first_match (map regex_of (before ++ r :: after)) link = Normal h.
Proof.
  induction before as [|b before IH]; intros r after h Hno C; simpl.
  - rewrite (proj2 (exec_iff r link h) C).
    now rewrite (Captures_truthy _ _ _ C).
  - rewrite (proj2 (exec_none_iff b link) (Hno b (or_introl eq_refl))).
    apply IH; auto. intros r' Hin. apply Hno. now right.
Qed.

Lemma first_match_nothing (link : string) (rs : list Rule) :
  (forall r, In r rs -> ~ Matches r link) ->
  first_match (map regex_of rs) link = Throw InvalidVoucherFormat.
Proof.
  induction rs as [|r rs IH]; intros Hno; simpl; [reflexivity|].
  rewrite (proj2 (exec_none_iff r link) (Hno r (or_introl eq_refl))).
  apply IH. intros r' Hin. apply Hno. now right.
Qed.

(** C3 (amended). The three ordered rules are occurrences of a text
    anywhere in the link: the text [v=] followed by letters and digits,
    whether or not it starts a query parameter named [v]; a [/] followed by
    letters and digits up to the end of the link, whether or not that is a
    segment of the path; the campaign address with its [v=]. For a link in
    which one of them occurs, [extractVoucherHash] returns the group
    captured by the first rule that occurs (the leftmost occurrence of that
    rule, with its longest alphanumeric group); for a link in which none
    occurs, and so for the empty link, it throws the invalid-format error.
    The method reads nothing but its argument: it is a function of the link
    alone. *)
Theorem extract_first_matching_rule (link : string) :
  (forall (before : list Rule) (r : Rule) (after : list Rule) (h : string),
      rules = (before ++ r :: after)%list ->
      (forall r', In r' before -> ~ Matches r' link) ->
      Captures r link h ->
      extractVoucherHash link = Normal h)
  /\ ((forall r, In r rules -> ~ Matches r link) ->
      extractVoucherHash link = Throw InvalidVoucherFormat)
  /\ extractVoucherHash "" = Throw InvalidVoucherFormat.
Proof.
  unfold extractVoucherHash, extractVoucherHash_with. rewrite patterns_rules.
  repeat split.
  - intros before r after h E Hno C. rewrite E.
    now rewrite (first_match_captures link before r after h Hno C).
  - intros Hno. now rewrite (first_match_nothing link rules Hno).
Qed.

Lemma extract_first_matching_rule_witness :
  extractVoucherHash "https://x/campaign/?v=ABC123" = Normal "ABC123"
  /\ extractVoucherHash "https://x/gift/0Xyz9" = Normal "0Xyz9"
  /\ extractVoucherHash "not a voucher link" = Throw InvalidVoucherFormat.
Proof.
  split; [|split].
  - apply (proj1 (extract_first_matching_rule _) [] rule_v [rule_tail; rule_campaign]).
    + reflexivity.
    + intros r' [].
    + apply exec_iff. reflexivity.
  - apply (proj1 (extract_first_matching_rule _) [rule_v] rule_tail [rule_campaign]).
    + reflexivity.
    + intros r' [<-|[]]. apply exec_none_iff. reflexivity.
    + apply exec_iff. reflexivity.
  - apply (proj1 (proj2 (extract_first_matching_rule _))).
    intros r [<-|[<-|[<-|[]]]]; apply exec_none_iff; reflexivity.
Defined.

(** C3 as stated fails: in [https://x/?dev=7&v=ABC123] the query parameter
    named [v] has the value [ABC123], and the method returns [7], the
    letters and digits after the [v=] that ends [dev=]; and
    [https://localhost], which has neither a [v] parameter nor a path
    segment, does not fail: the method returns the host name. *)
Lemma v_text_is_not_the_v_parameter :
  query_parameter_v "https://x/?dev=7&v=ABC123" "ABC123"
  /\ extractVoucherHash "https://x/?dev=7&v=ABC123" = Normal "7"
  /\ extractVoucherHash "https://x/?dev=7&v=ABC123" <> Normal "ABC123"
  /\ extractVoucherHash "https://localhost" = Normal "localhost".
Proof.
  split; [|split; [reflexivity | split; [discriminate | reflexivity]]].
  exists "https://x/?dev=7", "&", "". repeat split; auto; discriminate.
Qed.

Lemma campaign_occurs_v (link : string) :
  Matches rule_campaign link -> Matches rule_v link.
Proof.
  intros (pre & h & post & E & N & A & _).
  exists (pre ++ "gift.truemoney.com/campaign/?"), h, post.
  repeat split; auto; [|discriminate].
  rewrite E, append_assoc. reflexivity.
Qed.

(** C10. The third pattern never decides: on every link the method gives
    the same hash or the same failure with the three patterns as with the
    first two alone, because a link in which the campaign pattern occurs is
    a link in which the [v=] pattern, which is tried first, occurs. *)
Theorem campaign_pattern_is_dead (link : string) :
  extractVoucherHash link = extractVoucherHash_with [pattern_v; pattern_tail] link
  /\ (Matches rule_campaign link -> Matches rule_v link).
Proof.
  split; [|apply campaign_occurs_v].
  unfold extractVoucherHash, extractVoucherHash_with, patterns. simpl.
  change pattern_v with (regex_of rule_v).
  change pattern_campaign with (regex_of rule_campaign).
  destruct (exec (regex_of rule_v) link) as [g|] eqn:Ev.
  - apply exec_Captures, Captures_truthy in Ev. now rewrite Ev.
  - assert (Ec : exec (regex_of rule_campaign) link = None).
    { apply exec_none_iff. intros M. apply exec_no_match in Ev.
      now apply Ev, campaign_occurs_v. }
    rewrite Ec.
    destruct (exec pattern_tail link) as [g|]; [|reflexivity].
    destruct (Str.truthy g); reflexivity.
Qed.

Lemma campaign_pattern_is_dead_witness :
  Matches rule_campaign "https://gift.truemoney.com/campaign/?v=abc"
  /\ Matches rule_v "https://gift.truemoney.com/campaign/?v=abc".
Proof.
  assert (M : Matches rule_campaign "https://gift.truemoney.com/campaign/?v=abc").
  { exists "https://", "abc", "". repeat split; discriminate. }
  split; [exact M|].
  exact (proj2 (campaign_pattern_is_dead _) M).
Defined.

(** ** Reading the response *)

Lemma get_normal (v : value) (k : string) :
  Val.nullish v = false -> Val.get v k = Normal (Val.opt v k).
Proof. destruct v; simpl; intros; congruence. Qed.

Lemma field_undefined (path : list string) : field VUndefined path = VUndefined.
Proof. induction path as [|k path IH]; simpl; auto. Qed.

Lemma field_nullish (v : value) (path : list string) :
  Val.nullish v = true -> Val.truthy (field v path) = false.
Proof.
  intros N.
  assert (E : forall k, Val.opt v k = VUndefined) by (destruct v; easy).
  destruct path as [|k path]; unfold field; simpl.
  - destruct v; easy.
  - rewrite E. fold (field VUndefined path). now rewrite field_undefined.
Qed.

(** A property path that ends on a truthy value is read without fault. *)
Lemma read_field (path : list string) :
  forall data, Val.truthy (field data path) = true ->
               read data path = Normal (field data path).
Proof.
  induction path as [|k path IH]; intros data T; simpl in *; [reflexivity|].
  destruct (Val.nullish data) eqn:N.
  - apply (field_nullish data (k :: path)) in N. simpl in N. congruence.
  - rewrite (get_normal _ _ N). simpl. now apply IH.
Qed.

Lemma read_opt_field (data : value) (k : string) (ks : list string) :
  Val.nullish data = false ->
  read_opt data k ks = Normal (field data (k :: ks)).
Proof. intros N. unfold read_opt. now rewrite (get_normal _ _ N). Qed.

Lemma read_one (data : value) (k : string) :
  Val.nullish data = false -> read data [k] = Normal (field data [k]).
Proof. intros N. simpl. now rewrite (get_normal _ _ N). Qed.

(** The amount chain reads the probes in their order and parses the first
    truthy one. *)
Lemma extract_amount_probes (w : World) (data : value) :
  Val.nullish data = false ->
  extract_amount w data =
  match find Val.truthy (map (field data) probe_order) with
  | Some f => parseFloat (Number_toString w) f
  | None => Normal (Fin 0)
  end.
Proof.
  intros N. unfold extract_amount, probe_order.
  rewrite !(read_opt_field _ _ _ N), !(read_one _ _ N).
  cbn [map find and_then].
  repeat match goal with
  | |- context [Val.truthy (field data ?p)] =>
      let T := fresh "T" in
      destruct (Val.truthy (field data p)) eqn:T;
      [ try rewrite (read_field p data T); reflexivity | ]
  end.
  reflexivity.
Qed.

(** C4 (amended). Whenever the nested voucher amount
    [data.data.voucher.amount_baht] is truthy, the extracted amount is that
    field parsed as a floating-point number, whatever the top-level amount
    is. In general the six fields are probed in the order nested voucher
    amount, nested voucher redeemed amount, nested alternate-ticket amount,
    top-level misspelled amount, top-level amount, top-level value, and the
    first truthy one is parsed; with none truthy the amount stays 0. *)
Theorem first_truthy_amount_wins (w : World) (data : value) :
  Val.nullish data = false ->
  (forall nested,
      field data ["data"; "voucher"; "amount_baht"] = nested ->
      Val.truthy nested = true ->
      extract_amount w data = parseFloat (Number_toString w) nested)
  /\ extract_amount w data =
     match find Val.truthy (map (field data) probe_order) with
     | Some f => parseFloat (Number_toString w) f
     | None => Normal (Fin 0)
     end.
Proof.
  intros N. split; [|now apply extract_amount_probes].
  intros nested E T. rewrite (extract_amount_probes w data N).
  unfold probe_order. cbn [map find]. now rewrite E, T.
Qed.

Lemma first_truthy_amount_wins_witness :
  extract_amount (host (json_ok fifty)) fifty = Normal (Fin 50).
Proof.
  exact (proj1 (first_truthy_amount_wins (host (json_ok fifty)) fifty eq_refl)
           (VString "50") eq_refl eq_refl).
Defined.

(** C4 as stated fails: in [zero_nested] the nested voucher amount and the
    top-level amount are both present, with the different values 0 and 50,
    and the extracted amount is the top-level 50, not the nested 0. *)
Lemma present_nested_amount_loses :
  read zero_nested ["data"; "voucher"; "amount_baht"] = Normal (VNumber (Fin 0))
  /\ read zero_nested ["amount"] = Normal (VNumber (Fin 50))
  /\ parseFloat print_integer (VNumber (Fin 0)) = Normal (Fin 0)
  /\ extract_amount (host (json_ok zero_nested)) zero_nested = Normal (Fin 50)
  /\ extract_amount (host (json_ok zero_nested)) zero_nested
     <> parseFloat (Number_toString (host (json_ok zero_nested))) (VNumber (Fin 0)).
Proof. repeat split; try reflexivity. discriminate. Qed.

(** ** The redemption client *)

Lemma isSuccess_flag (data : value) :
  field data ["success"] = VBool true -> isSuccess data = Normal (VBool true).
Proof.
  intros F. destruct (Val.nullish data) eqn:N.
  - apply (field_nullish data ["success"]) in N. rewrite F in N. discriminate.
  - unfold isSuccess. rewrite (read_one _ _ N), F. reflexivity.
Qed.

Lemma worthless_check (a : number) :
  a = NaN \/ a = Infinity true \/ (exists q, a = Fin q /\ (q <= 0)%Q) ->
  negb (Num.truthy a) || Num.le0 a = true.
Proof.
  intros [-> | [-> | (q & -> & L)]]; simpl; auto.
  apply Qle_bool_iff in L. rewrite L. apply orb_true_r.
Qed.

Lemma positive_check (a : number) :
  negb (Num.truthy a) || Num.le0 a = false ->
  a = Infinity false \/ exists q, a = Fin q /\ (0 < q)%Q.
Proof.
  destruct a as [|[|]|q]; simpl; try discriminate; auto.
  intros H. apply orb_false_iff in H as [_ H]. right. exists q. split; auto.
  apply Qnot_le_lt. intros L. apply Qle_bool_iff in L. congruence.
Qed.

(** What [normalize] returns normally went through the amount check. *)
Lemma normalize_Normal (w : World) (data d : value) (a : number) :
  normalize w data = Normal (a, d) ->
  d = data
  /\ extract_amount w data = Normal a
  /\ negb (Num.truthy a) || Num.le0 a = false.
Proof.
  unfold normalize.
  destruct (isSuccess data) as [s|]; simpl; [|discriminate].
  destruct (Val.truthy s); simpl.
  - destruct (extract_amount w data) as [x|]; simpl; [|discriminate].
    destruct (negb (Num.truthy x) || Num.le0 x) eqn:C; [discriminate|].
    intros [= -> ->]. auto.
  - destruct (errorMsg data) as [m|]; simpl; [|discriminate].
    destruct (ToString (Number_toString w) m); discriminate.
Qed.

Lemma normalize_worthless (w : World) (data s : value) (a : number) :
  isSuccess data = Normal s -> Val.truthy s = true ->
  extract_amount w data = Normal a ->
  negb (Num.truthy a) || Num.le0 a = true ->
  normalize w data = Throw InvalidAmount.
Proof.
  intros S T A C. unfold normalize. rewrite S. simpl. rewrite T. simpl.
  rewrite A. simpl. now rewrite C.
Qed.

(** The method once the endpoint has answered with a parsable body. *)
Lemma callTrueMoneyAPI_answered (w : World) (voucherHash mobile : string)
      (st : State) (response : Response) (data : value) :
  TRUEMONEY_MOBILE w = Some mobile -> mobile <> "" ->
  fetch w {| voucherCode := voucherHash; mobileNumber := mobile |} = Normal response ->
  ok response = true -> json response = Normal data ->
  callTrueMoneyAPI w voucherHash st =
  (match normalize w data with
   | Normal r => Normal r
   | Throw e => Throw (if String.eqb (name e) "AbortError" then UpstreamTimeout else e)
   end,
   with_request {| voucherCode := voucherHash; mobileNumber := mobile |} st).
Proof.
  intros E M F O J. unfold callTrueMoneyAPI. rewrite E.
  destruct mobile as [|m0 mobile]; [congruence|].
  unfold try_catch, bind, do_fetch, lift, throw. rewrite F, O. simpl. rewrite J.
  destruct (normalize w data) as [r|e]; [reflexivity|].
  destruct (String.eqb (name e) "AbortError"); reflexivity.
Qed.

(** A normal return of the method comes from [normalize]. *)
Lemma callTrueMoneyAPI_Normal (w : World) (voucherHash : string) (st st' : State)
      (r : number * value) :
  callTrueMoneyAPI w voucherHash st = (Normal r, st') ->
  exists data, normalize w data = Normal r.
Proof.
  unfold callTrueMoneyAPI.
  destruct (TRUEMONEY_MOBILE w) as [[|m0 mobile]|]; try discriminate.
  unfold try_catch, bind, do_fetch, lift, throw.
  destruct (fetch w _) as [response|e].
  - destruct (ok response); simpl.
    + destruct (json response) as [data|e].
      * destruct (normalize w data) as [r'|e] eqn:Nz.
        -- intros [= <- _]. now exists data.
        -- destruct (String.eqb (name e) "AbortError"); discriminate.
      * destruct (String.eqb (name e) "AbortError"); discriminate.
    + destruct (text response) as [t|e]; simpl;
        [|destruct (String.eqb (name e) "AbortError")]; discriminate.
  - destruct (String.eqb (name e) "AbortError"); discriminate.
Qed.

(** A conversion to a string throws nothing but the error of an object
    without a primitive value. *)
Lemma ToString_throws (fmt : number -> string) (v : value) :
  forall e, ToString fmt v = Throw e -> e = NotPrimitive.
Proof.
  induction v as [| |b|n|s|items F|props] using value_induction; simpl;
    try discriminate.
  - destruct b; discriminate.
  - induction F as [|x rest Hx F IHr]; intros e; [discriminate|].
    destruct (match x with VUndefined | VNull => Normal "" | _ => ToString fmt x end)
      as [t|e'] eqn:X; cbn [and_then].
    + destruct rest as [|y rest']; [discriminate|].
      match goal with
      | |- and_then ?j _ = _ -> _ => destruct j as [r|e''] eqn:J
      end; cbn [and_then]; [discriminate|].
      intros [= <-]. now apply IHr.
    + intros [= <-]. destruct x; try discriminate; apply (Hx _ X).
  - intros e. destruct (Val.has_own "toString" props);
      [intros [= <-]; reflexivity | discriminate].
Qed.

(** On a body that is not [null], the amount chain throws only when the
    field it parses has no primitive value. *)
Lemma extract_amount_throws (w : World) (data : value) (e : Error) :
  Val.nullish data = false ->
  extract_amount w data = Throw e -> e = NotPrimitive.
Proof.
  intros N. rewrite (extract_amount_probes w data N).
  destruct (find Val.truthy (map (field data) probe_order)) as [f|];
    [|discriminate].
  unfold parseFloat.
  destruct (ToString (Number_toString w) f) as [t|e'] eqn:T; [discriminate|].
  intros [= <-]. exact (ToString_throws _ _ _ T).
Qed.

(** C5 (amended). When the endpoint's answer is taken as a success (its
    explicit [success] flag is [true], or any other success signal holds)
    and the amount chain yields a number that is [NaN] (the field's text
    does not start with a number), zero or negative, [callTrueMoneyAPI]
    throws the invalid-amount error. When the field it parses is an object
    without a primitive value, the chain yields no number: the conversion
    throws a [TypeError], and that error, not the invalid-amount one, is
    what [callTrueMoneyAPI] throws. And whenever the method returns an
    amount, that amount is strictly greater than zero. *)
Theorem worthless_amount_is_rejected :
  (forall (w : World) (voucherHash mobile : string) (st : State)
          (response : Response) (data : value) (amount : number),
      TRUEMONEY_MOBILE w = Some mobile -> mobile <> "" ->
      fetch w {| voucherCode := voucherHash; mobileNumber := mobile |}
        = Normal response ->
      ok response = true -> json response = Normal data ->
      (field data ["success"] = VBool true
       \/ exists s, isSuccess data = Normal s /\ Val.truthy s = true) ->
      extract_amount w data = Normal amount ->
      (amount = NaN \/ amount = Infinity true
       \/ exists q, amount = Fin q /\ (q <= 0)%Q) ->
      fst (callTrueMoneyAPI w voucherHash st) = Throw InvalidAmount)
  /\ (forall (w : World) (voucherHash mobile : string) (st : State)
             (response : Response) (data : value) (e : Error),
      TRUEMONEY_MOBILE w = Some mobile -> mobile <> "" ->
      fetch w {| voucherCode := voucherHash; mobileNumber := mobile |}
        = Normal response ->
      ok response = true -> json response = Normal data ->
      (field data ["success"] = VBool true
       \/ exists s, isSuccess data = Normal s /\ Val.truthy s = true) ->
      extract_amount w data = Throw e ->
      e = NotPrimitive
      /\ fst (callTrueMoneyAPI w voucherHash st) = Throw NotPrimitive
      /\ NotPrimitive <> InvalidAmount)
  /\ (forall (w : World) (voucherHash : string) (st st' : State)
             (amount : number) (data : value),
      callTrueMoneyAPI w voucherHash st = (Normal (amount, data), st') ->
      amount = Infinity false \/ exists q, amount = Fin q /\ (0 < q)%Q).
Proof.
  assert (Sx : forall data,
             field data ["success"] = VBool true
             \/ (exists s, isSuccess data = Normal s /\ Val.truthy s = true) ->
             exists s, isSuccess data = Normal s /\ Val.truthy s = true).
  { intros data [S|S]; [|exact S].
    exists (VBool true). split; [now apply isSuccess_flag | reflexivity]. }
  split; [|split].
  - intros w voucherHash mobile st response data amount E M F O J S A W.
    rewrite (callTrueMoneyAPI_answered w voucherHash mobile st response data E M F O J).
    destruct (Sx data S) as (s & S1 & S2).
    rewrite (normalize_worthless w data s amount S1 S2 A (worthless_check _ W)).
    reflexivity.
  - intros w voucherHash mobile st response data e E M F O J S A.
    destruct (Sx data S) as (s & S1 & S2).
    assert (N : Val.nullish data = false).
    { destruct data; try reflexivity; discriminate. }
    assert (e = NotPrimitive) as -> by exact (extract_amount_throws w data e N A).
    split; [reflexivity|]. split; [|discriminate].
    rewrite (callTrueMoneyAPI_answered w voucherHash mobile st response data E M F O J).
    unfold normalize. rewrite S1. cbn [and_then]. rewrite S2. cbn [negb].
    rewrite A. reflexivity.
  - intros w voucherHash st st' amount data H.
    apply callTrueMoneyAPI_Normal in H as (d & H).
    apply normalize_Normal in H as (_ & _ & C).
    now apply positive_check.
Qed.

Lemma worthless_amount_is_rejected_witness :
  fst (callTrueMoneyAPI (host (json_ok worthless)) "ABC123" empty) = Throw InvalidAmount
  /\ fst (callTrueMoneyAPI (host (json_ok unconvertible)) "ABC123" empty)
     = Throw NotPrimitive
  /\ ((Fin 50 = Infinity false) \/ exists q, Fin 50 = Fin q /\ (0 < q)%Q).
Proof.
  split; [|split].
  - apply (proj1 worthless_amount_is_rejected (host (json_ok worthless)) "ABC123"
             "0812345678" empty
             {| status := 200; text := Normal ""; json := Normal worthless |}
             worthless (Fin 0)); try reflexivity.
    + discriminate.
    + left. reflexivity.
    + right. right. exists 0%Q. split; [reflexivity | discriminate].
  - apply (proj1 (proj2 worthless_amount_is_rejected)
             (host (json_ok unconvertible)) "ABC123" "0812345678" empty
             {| status := 200; text := Normal ""; json := Normal unconvertible |}
             unconvertible NotPrimitive); try reflexivity.
    + discriminate.
    + left. reflexivity.
  - apply (proj2 (proj2 worthless_amount_is_rejected) (host (json_ok fifty))
             "ABC123" empty
             (with_request {| voucherCode := "ABC123"; mobileNumber := "0812345678" |} empty)
             (Fin 50) fifty).
    reflexivity.
Defined.

(** C5 as stated fails: the answer [unconvertible] has [success: true] and
    an amount field that cannot be parsed, an object whose own [toString]
    is not a function, and [callTrueMoneyAPI] throws the [TypeError] of the
    conversion, not the invalid-amount error. *)
Lemma unparseable_amount_is_a_TypeError :
  field unconvertible ["success"] = VBool true
  /\ field unconvertible ["data"; "voucher"; "amount_baht"]
     = VObject [("toString", VString "x")]
  /\ callTrueMoneyAPI (host (json_ok unconvertible)) "ABC123" empty
     = (Throw (new_TypeError "Cannot convert object to primitive value"),
        with_request alice_request empty)
  /\ new_TypeError "Cannot convert object to primitive value" <> InvalidAmount.
Proof. repeat split. discriminate. Qed.

(** An amount too small for binary64 is parsed as zero and rejected. *)
Example vanishing_amount_is_rejected :
  callTrueMoneyAPI (host (json_ok vanishing)) "ABC123" empty
  = (Throw InvalidAmount, with_request alice_request empty).
Proof. reflexivity. Qed.

(** ** The ledger reads *)

Lemma no_completed (l : list Donation.t) :
  (forall d, In d l -> Donation.status d <> Donation.completed) ->
  filter Donation.is_completed l = [].
Proof.
  induction l as [|d l IH]; intros H; simpl; [reflexivity|].
  unfold Donation.is_completed at 1.
  destruct (Donation.status d) eqn:S; simpl;
    try (apply IH; intros d' Hin; apply H; now right).
  exfalso. apply (H d); [now left | exact S].
Qed.

(** C6. Over a ledger without completed records [getDonationStats] returns
    the statistics whose numeric fields are all zero and whose last-donation
    timestamp is absent; it returns the same object when the aggregation
    faults; and in every case it returns statistics rather than throwing,
    and leaves the collaborators as they were. *)
Theorem stats_degrade_to_zero (w : World) (st : State) :
  ((forall d, In d (ledger st) -> Donation.status d <> Donation.completed) ->
   getDonationStats w st = (Normal Stats.zero, st))
  /\ (forall e, aggregate_fault w = Some e ->
                getDonationStats w st = (Normal Stats.zero, st))
  /\ (exists s, getDonationStats w st = (Normal s, st))
  /\ Stats.totalAmount Stats.zero = Fin 0
  /\ Stats.totalDonations Stats.zero = Fin 0
  /\ Stats.averageAmount Stats.zero = Fin 0
  /\ Stats.topDonation Stats.zero = Fin 0
  /\ Stats.lastDonation Stats.zero = None.
Proof.
  unfold getDonationStats, try_catch, bind, aggregate, ret.
  repeat split.
  - intros H. destruct (aggregate_fault w); [reflexivity|].
    now rewrite (no_completed _ H).
  - intros e ->. reflexivity.
  - destruct (aggregate_fault w); eauto.
Qed.

Lemma stats_degrade_to_zero_witness :
  getDonationStats (host aborted) unfinished = (Normal Stats.zero, unfinished)
  /\ getDonationStats host_read_down unfinished = (Normal Stats.zero, unfinished).
Proof.
  split.
  - apply (proj1 (stats_degrade_to_zero (host aborted) unfinished)).
    intros d [<-|[]]. discriminate.
  - apply (proj1 (proj2 (stats_degrade_to_zero host_read_down unfinished))
             (mkError "MongoNetworkError" "connection closed")).
    reflexivity.
Defined.

(** C9. When the read of the collection faults, [getRecentDonations] returns
    the empty list, for every limit, instead of throwing. *)
Theorem recent_degrades_to_empty (w : World) (limit : Z) (st : State) (e : Error) :
  find_fault w = Some e ->
  getRecentDonations w limit st = (Normal [], st).
Proof.
  intros F. unfold getRecentDonations, try_catch, bind, find_recent, ret.
  now rewrite F.
Qed.

Lemma recent_degrades_to_empty_witness :
  getRecentDonations host_read_down 10 empty = (Normal [], empty).
Proof.
  apply (recent_degrades_to_empty host_read_down 10 empty
           (mkError "MongoNetworkError" "connection closed")).
  reflexivity.
Defined.

(** ** The pipeline *)

(** The [catch] block never saves: evaluating [voucherHash] for the failed
    record throws, either in the locator or at [.catch], and the inner
    [catch] swallows it. The block returns the failed result. *)
Lemma processDonation_catch_result (w : World) (c : Claim.t) (error : Error)
      (st : State) :
  processDonation_catch w c error st = (Normal (failed_result error), st).
Proof.
  unfold processDonation_catch, try_catch, bind, lift, ret.
  destruct (extractVoucherHash (Str.or (Claim.voucherLink c) "")); reflexivity.
Qed.

Lemma processDonation_eq (w : World) (c : Claim.t) (st : State) :
  processDonation w c st =
  match processDonation_try w c st with
  | (Normal r, st') => (Normal r, st')
  | (Throw e, st') => (Normal (failed_result e), st')
  end.
Proof.
  unfold processDonation, try_catch.
  destruct (processDonation_try w c st) as [[r|e] st']; [reflexivity|].
  apply processDonation_catch_result.
Qed.

(** The [try] block is the three named steps followed by Persist and
    Publish. *)
Lemma processDonation_try_steps (w : World) (c : Claim.t) (st : State) :
  processDonation_try w c st =
  match locate_check_redeem w c st with
  | (Throw e, st1) => (Throw e, st1)
  | (Normal (h, (a, d)), st1) =>
      match save w (completed_donation w c h a d) st1 with
      | (Throw e, st2) => (Throw e, st2)
      | (Normal _, st2) =>
          (Normal {| Result.success := true;
                     Result.message := thanks w (Claim.donorName c) a;
                     Result.data := Some (event_of (completed_donation w c h a d)) |},
           with_event "new-donation" (event_of (completed_donation w c h a d)) st2)
      end
  end.
Proof.
  unfold processDonation_try, locate_check_redeem, bind, lift, ret, throw.
  destruct (extractVoucherHash (Claim.voucherLink c)) as [h|e]; [|reflexivity].
  destruct (isDuplicateVoucher w h st) as [[[|]|e] st0]; try reflexivity.
  destruct (callTrueMoneyAPI w h st0) as [[[a d]|e] st1]; [|reflexivity].
  fold (completed_donation w c h a d).
  destruct (save w (completed_donation w c h a d) st1) as [[[]|e] st2]; reflexivity.
Qed.

Lemma save_cases (w : World) (doc : Donation.t) (st : State) :
  (exists e, save w doc st = (Throw e, st))
  \/ (save w doc st = (Normal tt, with_record doc st)
      /\ save_fault w doc = None
      /\ existsb (Donation.has_hash (Donation.voucherHash doc)) (ledger st) = false).
Proof.
  unfold save. destruct (save_fault w doc) as [e|]; [left; eauto|].
  destruct (existsb _ (ledger st)); [left; eauto | right; auto].
Qed.

Lemma has_hash_iff (h : string) (d : Donation.t) :
  Donation.has_hash h d = true <-> Donation.voucherHash d = h.
Proof. unfold Donation.has_hash. apply String.eqb_eq. Qed.

Lemma known_hash (h : string) (l : list Donation.t) :
  (exists d, In d l /\ Donation.voucherHash d = h) <->
  existsb (Donation.has_hash h) l = true.
Proof.
  rewrite existsb_exists. split; intros (d & I & H); exists d; split; auto;
    now apply has_hash_iff.
Qed.

Lemma isDuplicateVoucher_eq (w : World) (h : string) (st : State) :
  isDuplicateVoucher w h st =
  (match findOne_fault w with
   | Some e => Throw e
   | None => Normal (existsb (Donation.has_hash h) (ledger st))
   end, st).
Proof.
  unfold isDuplicateVoucher, bind, findOne, ret.
  destruct (findOne_fault w); [reflexivity|].
  induction (ledger st) as [|d l IH]; simpl; [reflexivity|].
  destruct (Donation.has_hash h d); simpl; [reflexivity|].
  destruct (find (Donation.has_hash h) l); simpl in *; congruence.
Qed.

(** The redemption client touches neither the ledger nor the socket. *)
Lemma callTrueMoneyAPI_frame (w : World) (h : string) (st : State) :
  ledger (snd (callTrueMoneyAPI w h st)) = ledger st
  /\ emitted (snd (callTrueMoneyAPI w h st)) = emitted st.
Proof.
  unfold callTrueMoneyAPI.
  destruct (TRUEMONEY_MOBILE w) as [[|m0 mobile]|]; try (now split).
  unfold try_catch, bind, do_fetch, lift, throw.
  destruct (fetch w _) as [response|e].
  - destruct (ok response); simpl.
    + destruct (json response) as [data|e].
      * destruct (normalize w data) as [r|e]; [now split|].
        destruct (String.eqb (name e) "AbortError"); now split.
      * destruct (String.eqb (name e) "AbortError"); now split.
    + destruct (text response) as [t|e]; simpl;
        [|destruct (String.eqb (name e) "AbortError")]; now split.
  - destruct (String.eqb (name e) "AbortError"); now split.
Qed.

(** Locate, Duplicate check and Redeem: where they stop and what they leave
    behind. *)
Lemma locate_check_redeem_eq (w : World) (c : Claim.t) (st : State) :
  locate_check_redeem w c st =
  match extractVoucherHash (Claim.voucherLink c) with
  | Throw e => (Throw e, st)
  | Normal h =>
      match findOne_fault w with
      | Some e => (Throw e, st)
      | None =>
          if existsb (Donation.has_hash h) (ledger st)
          then (Throw DuplicateVoucher, st)
          else match callTrueMoneyAPI w h st with
               | (Normal r, st1) => (Normal (h, r), st1)
               | (Throw e, st1) => (Throw e, st1)
               end
      end
  end.
Proof.
  unfold locate_check_redeem, bind, lift, throw, ret.
  destruct (extractVoucherHash (Claim.voucherLink c)) as [h|e]; [|reflexivity].
  rewrite isDuplicateVoucher_eq.
  destruct (findOne_fault w); [reflexivity|].
  destruct (existsb (Donation.has_hash h) (ledger st)); reflexivity.
Qed.

Lemma locate_check_redeem_frame (w : World) (c : Claim.t) (st : State) :
  ledger (snd (locate_check_redeem w c st)) = ledger st
  /\ emitted (snd (locate_check_redeem w c st)) = emitted st.
Proof.
  rewrite locate_check_redeem_eq.
  destruct (extractVoucherHash (Claim.voucherLink c)) as [h|e]; [|now split].
  destruct (findOne_fault w); [now split|].
  destruct (existsb (Donation.has_hash h) (ledger st)); [now split|].
  pose proof (callTrueMoneyAPI_frame w h st) as F.
  destruct (callTrueMoneyAPI w h st) as [[r|e] st1]; exact F.
Qed.

Lemma locate_check_redeem_Normal (w : World) (c : Claim.t) (st st1 : State)
      (h : string) (r : number * value) :
  locate_check_redeem w c st = (Normal (h, r), st1) ->
  extractVoucherHash (Claim.voucherLink c) = Normal h
  /\ existsb (Donation.has_hash h) (ledger st) = false
  /\ callTrueMoneyAPI w h st = (Normal r, st1).
Proof.
  rewrite locate_check_redeem_eq.
  destruct (extractVoucherHash (Claim.voucherLink c)) as [h'|e]; [|discriminate].
  destruct (findOne_fault w); [discriminate|].
  destruct (existsb (Donation.has_hash h') (ledger st)) eqn:X; [discriminate|].
  destruct (callTrueMoneyAPI w h' st) as [[r'|e] st1'] eqn:A; [|discriminate].
  intros [= -> -> ->]. auto.
Qed.

(** What a call of [processDonation] can do: it fails and writes nothing,
    or it succeeds and appends one completed record with the located hash,
    which was not in the ledger. *)
Lemma processDonation_outcomes (w : World) (c : Claim.t) (st : State) :
  exists r st',
    processDonation w c st = (Normal r, st')
    /\ ((Result.success r = false /\ ledger st' = ledger st
         /\ emitted st' = emitted st)
        \/ (Result.success r = true
            /\ exists h a d,
                 extractVoucherHash (Claim.voucherLink c) = Normal h
                 /\ existsb (Donation.has_hash h) (ledger st) = false
                 /\ ledger st' = (ledger st ++ [completed_donation w c h a d])%list)).
Proof.
  rewrite processDonation_eq, processDonation_try_steps.
  pose proof (locate_check_redeem_frame w c st) as [FL FE].
  destruct (locate_check_redeem w c st) as [[[h [a d]]|e] st1] eqn:L; simpl in *.
  - apply locate_check_redeem_Normal in L as (X & D & _).
    destruct (save_cases w (completed_donation w c h a d) st1) as [(e & S)|(S & _)];
      rewrite S.
    + do 2 eexists. split; [reflexivity|]. left. auto.
    + do 2 eexists. split; [reflexivity|]. right. split; [reflexivity|].
      exists h, a, d. simpl. rewrite FL. auto.
  - do 2 eexists. split; [reflexivity|]. left. auto.
Qed.

Lemma thanks_includes (w : World) (donorName : string) (amount : number) :
  Str.includes donorName (thanks w donorName amount) = true
  /\ Str.includes (Number_toLocaleString w amount) (thanks w donorName amount) = true.
Proof.
  unfold thanks. split.
  - apply includes_app.
  - rewrite <- append_assoc, <- append_assoc. apply includes_app.
Qed.

(** C1. The scenario of the specification: the link
    [https://x/campaign/?v=ABC123] from donor Alice, a voucher that is not
    in the ledger, and the answer
    [{ success: true, data: { voucher: { amount_baht: "50" } } }]. With the
    account configured, the store answering and the host printing 50 as
    [50], the result is a success whose message contains [Alice] and [50],
    and exactly one record is appended to the ledger: completed, of amount
    50, for the hash [ABC123]. *)
Theorem alice_redeems_fifty (w : World) (c : Claim.t) (st : State)
        (mobile : string) (response : Response) :
  Claim.voucherLink c = "https://x/campaign/?v=ABC123" ->
  Claim.donorName c = "Alice" ->
  TRUEMONEY_MOBILE w = Some mobile -> mobile <> "" ->
  fetch w {| voucherCode := "ABC123"; mobileNumber := mobile |} = Normal response ->
  ok response = true -> json response = Normal fifty ->
  findOne_fault w = None ->
  (forall d, In d (ledger st) -> Donation.voucherHash d <> "ABC123") ->
  (forall d, save_fault w d = None) ->
  Number_toLocaleString w (Fin 50) = "50" ->
  exists r st' d,
    processDonation w c st = (Normal r, st')
    /\ Result.success r = true
    /\ Str.includes "Alice" (Result.message r) = true
    /\ Str.includes "50" (Result.message r) = true
    /\ ledger st' = (ledger st ++ [d])%list
    /\ Donation.status d = Donation.completed
    /\ Donation.amount d = Fin 50
    /\ Donation.voucherHash d = "ABC123"
    /\ Donation.donorName d = "Alice".
Proof.
  intros L D E M F O J Q Hnew S Fmt.
  assert (X : existsb (Donation.has_hash "ABC123") (ledger st) = false).
  { destruct (existsb (Donation.has_hash "ABC123") (ledger st)) eqn:X; auto.
    apply known_hash in X as (d & I & H). now destruct (Hnew d I). }
  assert (Lcr : locate_check_redeem w c st =
                (Normal ("ABC123", (Fin 50, fifty)),
                 with_request {| voucherCode := "ABC123"; mobileNumber := mobile |} st)).
  { rewrite locate_check_redeem_eq, L.
    change (extractVoucherHash "https://x/campaign/?v=ABC123") with (@Normal string "ABC123").
    rewrite Q, X.
    now rewrite (callTrueMoneyAPI_answered w "ABC123" mobile st response fifty E M F O J). }
  rewrite processDonation_eq, processDonation_try_steps, Lcr.
  unfold save. rewrite S. simpl ledger. cbn [Donation.voucherHash completed_donation
    Donation.create Donation.i_voucherHash]. rewrite X.
  do 3 eexists. split; [reflexivity|]. cbn [Result.success Result.message].
  pose proof (thanks_includes w (Claim.donorName c) (Fin 50)) as [T1 T2].
  rewrite D, Fmt in *. repeat split; auto.
  cbn. now rewrite D.
Qed.

Lemma alice_redeems_fifty_witness :
  exists r st' d,
    processDonation (host (json_ok fifty)) alice empty = (Normal r, st')
    /\ Result.success r = true
    /\ Str.includes "Alice" (Result.message r) = true
    /\ Str.includes "50" (Result.message r) = true
    /\ ledger st' = (ledger empty ++ [d])%list
    /\ Donation.status d = Donation.completed
    /\ Donation.amount d = Fin 50
    /\ Donation.voucherHash d = "ABC123"
    /\ Donation.donorName d = "Alice".
Proof.
  apply (alice_redeems_fifty (host (json_ok fifty)) alice empty "0812345678"
           {| status := 200; text := Normal ""; json := Normal fifty |});
    try reflexivity.
  - discriminate.
  - intros d [].
Defined.

Lemma completed_count_app (l : list Donation.t) (d : Donation.t) :
  (length (filter Donation.is_completed (l ++ [d]))
   <= S (length (filter Donation.is_completed l)))%nat.
Proof.
  rewrite filter_app, length_app. simpl.
  destruct (Donation.is_completed d); simpl; lia.
Qed.

(** Run alone, a call passes its three points and returns what
    [processDonation] returns. *)
Lemma advance_thrice (w : World) (c : Claim.t) (st : State) :
  exists r st',
    processDonation w c st = (Normal r, st')
    /\ (let (p1, st1) := advance w c Submitted st in
        let (p2, st2) := advance w c p1 st1 in
        advance w c p2 st2) = (Returned r, st').
Proof.
  rewrite processDonation_eq, processDonation_try_steps, locate_check_redeem_eq.
  unfold advance at 1.
  destruct (extractVoucherHash (Claim.voucherLink c)) as [h|e]; [|simpl; eauto].
  rewrite isDuplicateVoucher_eq.
  destruct (findOne_fault w); [simpl; eauto|].
  destruct (existsb (Donation.has_hash h) (ledger st)); [simpl; eauto|].
  unfold advance at 1.
  destruct (callTrueMoneyAPI w h st) as [[[a d]|e] st1]; [|simpl; eauto].
  unfold advance.
  destruct (save w (completed_donation w c h a d) st1) as [[[]|e] st2]; eauto.
Qed.

Lemma advance_grows (w : World) (c : Claim.t) (p : Progress) (st : State) :
  exists l, ledger (snd (advance w c p st)) = (ledger st ++ l)%list.
Proof.
  destruct p as [|h|h a d|r]; simpl.
  - destruct (extractVoucherHash (Claim.voucherLink c)) as [h|e];
      [|exists []; now rewrite app_nil_r].
    rewrite isDuplicateVoucher_eq.
    destruct (findOne_fault w); [exists []; now rewrite app_nil_r|].
    destruct (existsb (Donation.has_hash h) (ledger st));
      exists []; now rewrite app_nil_r.
  - pose proof (callTrueMoneyAPI_frame w h st) as [F _].
    destruct (callTrueMoneyAPI w h st) as [[[a d]|e] st1]; simpl in *;
      exists []; now rewrite app_nil_r.
  - destruct (save_cases w (completed_donation w c h a d) st) as [(e & S)|(S & _)];
      rewrite S; simpl.
    + exists []. now rewrite app_nil_r.
    + now exists [completed_donation w c h a d].
  - exists []. now rewrite app_nil_r.
Qed.

Lemma settled_grows (link : string) (p : Progress) (st st' : State) :
  settled link p st ->
  (exists l, ledger st' = (ledger st ++ l)%list) ->
  settled link p st'.
Proof.
  intros H (l & E). destruct p as [|h|h a d|r]; simpl in *; auto.
  intros T. destruct (H T) as (h & X & K). exists h. split; [exact X|].
  rewrite E, existsb_app, K. reflexivity.
Qed.

Lemma advance_settled (w : World) (c : Claim.t) (p : Progress) (st : State) :
  settled (Claim.voucherLink c) p st ->
  settled (Claim.voucherLink c) (fst (advance w c p st)) (snd (advance w c p st)).
Proof.
  destruct p as [|h|h a d|r]; simpl.
  - intros _.
    destruct (extractVoucherHash (Claim.voucherLink c)) as [h|e] eqn:X;
      [|simpl; discriminate].
    rewrite isDuplicateVoucher_eq.
    destruct (findOne_fault w); [simpl; discriminate|].
    destruct (existsb (Donation.has_hash h) (ledger st)); simpl;
      [discriminate | exact X].
  - intros X. destruct (callTrueMoneyAPI w h st) as [[[a d]|e] st1]; simpl;
      [exact X | discriminate].
  - intros X.
    destruct (save_cases w (completed_donation w c h a d) st) as [(e & S)|(S & _)];
      rewrite S; simpl; [discriminate|].
    intros _. exists h. split; [exact X|].
    rewrite existsb_app. simpl. unfold Donation.has_hash at 2. simpl.
    now rewrite String.eqb_refl, orb_true_r.
  - auto.
Qed.

(** A call turns into a returned success only at its save, and only when
    the ledger does not hold its hash yet. *)
Lemma advance_success (w : World) (c : Claim.t) (p : Progress) (st : State)
      (r : Result.t) :
  fst (advance w c p st) = Returned r -> Result.success r = true ->
  p = Returned r
  \/ exists h a d, p = Persisting h a d
                   /\ existsb (Donation.has_hash h) (ledger st) = false.
Proof.
  destruct p as [|h|h a d|r0]; simpl.
  - destruct (extractVoucherHash (Claim.voucherLink c)) as [h|e];
      [|intros [= <-]; discriminate].
    rewrite isDuplicateVoucher_eq.
    destruct (findOne_fault w); [intros [= <-]; discriminate|].
    destruct (existsb (Donation.has_hash h) (ledger st)); simpl;
      [intros [= <-] |]; discriminate.
  - destruct (callTrueMoneyAPI w h st) as [[[a d]|e] st1]; simpl;
      [|intros [= <-]]; discriminate.
  - destruct (save_cases w (completed_donation w c h a d) st)
      as [(e & S)|(S & _ & N)]; rewrite S; simpl.
    + intros [= <-]. discriminate.
    + intros _ _. right. exists h, a, d. auto.
  - intros [= ->] _. now left.
Qed.

Lemma exclusive_sym (p1 p2 : Progress) : exclusive p1 p2 -> exclusive p2 p1.
Proof.
  destruct p1, p2; simpl; auto. now rewrite andb_comm.
Qed.

(** One step of one of two calls for the same link keeps them exclusive. *)
Lemma advance_exclusive (w : World) (c : Claim.t) (p other : Progress) (st : State) :
  settled (Claim.voucherLink c) p st ->
  settled (Claim.voucherLink c) other st ->
  exclusive p other ->
  exclusive (fst (advance w c p st)) other.
Proof.
  intros Sp So X.
  destruct (fst (advance w c p st)) as [| | |r] eqn:A; simpl; auto.
  destruct other as [| | |r']; auto.
  destruct (Result.success r) eqn:T; [|reflexivity].
  destruct (Result.success r') eqn:T'; simpl; [|reflexivity].
  exfalso. destruct (advance_success w c p st r A T) as [-> | (h & a & d & -> & N)].
  - simpl in X. rewrite T, T' in X. discriminate.
  - simpl in Sp, So. destruct (So T') as (h' & E & K). congruence.
Qed.

(** However two calls for the same link are interleaved, they do not both
    return a success. *)
Lemma interleave_exclusive (w1 w2 : World) (c1 c2 : Claim.t) (schedule : list bool) :
  Claim.voucherLink c1 = Claim.voucherLink c2 ->
  forall p1 p2 st,
    settled (Claim.voucherLink c1) p1 st ->
    settled (Claim.voucherLink c1) p2 st ->
    exclusive p1 p2 ->
    exclusive (fst (fst (interleave w1 w2 c1 c2 schedule p1 p2 st)))
              (snd (fst (interleave w1 w2 c1 c2 schedule p1 p2 st))).
Proof.
  intros L. induction schedule as [|[|] rest IH]; intros p1 p2 st S1 S2 X; simpl.
  - exact X.
  - pose proof (advance_settled w1 c1 p1 st S1) as S1'.
    pose proof (advance_exclusive w1 c1 p1 p2 st S1 S2 X) as X'.
    pose proof (settled_grows _ p2 st _ S2 (advance_grows w1 c1 p1 st)) as S2'.
    destruct (advance w1 c1 p1 st) as [p1' st']. now apply IH.
  - rewrite L in *.
    pose proof (advance_settled w2 c2 p2 st S2) as S2'.
    pose proof (advance_exclusive w2 c2 p2 p1 st S2 S1 (exclusive_sym _ _ X)) as X'.
    pose proof (settled_grows _ p1 st _ S1 (advance_grows w2 c2 p2 st)) as S1'.
    destruct (advance w2 c2 p2 st) as [p2' st']. apply IH; auto.
    now apply exclusive_sym.
Qed.

(** C2. When the hash located in the link is already the hash of a record
    of the ledger, [processDonation] returns a failed result and changes
    nothing: no request is sent to the redemption endpoint, nothing is
    written; the message is the duplicate message once the lookup has
    answered. And the same link submitted twice completes at most once: of
    two calls, one after the other, at most one succeeds and the ledger
    gains at most one completed record; and however the steps of two calls
    in flight are interleaved, they do not both return a success. *)
Theorem duplicate_is_refused :
  (forall (w : World) (c : Claim.t) (st : State) (h : string),
      extractVoucherHash (Claim.voucherLink c) = Normal h ->
      (exists d, In d (ledger st) /\ Donation.voucherHash d = h) ->
      exists r,
        processDonation w c st = (Normal r, st)
        /\ Result.success r = false
        /\ (findOne_fault w = None -> r = failed_result DuplicateVoucher))
  /\ (forall (w1 w2 : World) (c1 c2 : Claim.t) (st st1 st2 : State)
             (r1 r2 : Result.t),
      Claim.voucherLink c1 = Claim.voucherLink c2 ->
      processDonation w1 c1 st = (Normal r1, st1) ->
      processDonation w2 c2 st1 = (Normal r2, st2) ->
      Result.success r1 && Result.success r2 = false
      /\ (length (filter Donation.is_completed (ledger st2))
          <= S (length (filter Donation.is_completed (ledger st))))%nat)
  /\ (forall (w1 w2 : World) (c1 c2 : Claim.t) (schedule : list bool)
             (st st' : State) (r1 r2 : Result.t),
      Claim.voucherLink c1 = Claim.voucherLink c2 ->
      interleave w1 w2 c1 c2 schedule Submitted Submitted st
        = (Returned r1, Returned r2, st') ->
      Result.success r1 && Result.success r2 = false).
Proof.
  split; [|split].
  - intros w c st h X D. apply known_hash in D.
    rewrite processDonation_eq, processDonation_try_steps,
      locate_check_redeem_eq, X, D.
    destruct (findOne_fault w) as [e|]; eexists; repeat split; congruence.
  - intros w1 w2 c1 c2 st st1 st2 r1 r2 L P1 P2.
    destruct (processDonation_outcomes w1 c1 st) as (r1' & st1' & Q1 & O1).
    destruct (processDonation_outcomes w2 c2 st1) as (r2' & st2' & Q2 & O2).
    rewrite P1 in Q1. injection Q1 as <- <-.
    rewrite P2 in Q2. injection Q2 as <- <-.
    destruct O1 as [(S1 & L1 & _) | (S1 & h1 & a1 & d1 & X1 & N1 & L1)].
    + rewrite S1. split; [reflexivity|].
      destruct O2 as [(_ & L2 & _) | (_ & h2 & a2 & d2 & _ & _ & L2)];
        rewrite L2, L1; [lia | apply completed_count_app].
    + destruct O2 as [(S2 & L2 & _) | (_ & h2 & a2 & d2 & X2 & N2 & _)].
      * rewrite S2, andb_false_r. split; [reflexivity|].
        rewrite L2, L1. apply completed_count_app.
      * exfalso. rewrite <- L, X1 in X2. injection X2 as <-.
        rewrite L1, existsb_app in N2. simpl in N2.
        unfold Donation.has_hash at 2 in N2. simpl in N2.
        rewrite String.eqb_refl, orb_true_r in N2. discriminate.
  - intros w1 w2 c1 c2 schedule st st' r1 r2 L R.
    pose proof (interleave_exclusive w1 w2 c1 c2 schedule L Submitted Submitted st
                  I I I) as X.
    rewrite R in X. exact X.
Qed.

Lemma duplicate_is_refused_witness :
  (exists r1 r2 st1,
      processDonation (host (json_ok fifty)) alice empty = (Normal r1, st1)
      /\ processDonation (host (json_ok fifty)) alice st1 = (Normal r2, st1)
      /\ r2 = failed_result DuplicateVoucher
      /\ Result.success r1 && Result.success r2 = false)
  /\ (exists r1 r2 st',
         interleave (host (json_ok fifty)) (host (json_ok fifty)) alice alice
           [true; false; true; false; true; false] Submitted Submitted empty
         = (Returned r1, Returned r2, st')
         /\ Result.success r1 && Result.success r2 = false).
Proof.
  split.
  - do 3 eexists.
    assert (P1 : processDonation (host (json_ok fifty)) alice empty
                 = (Normal (success_result (host (json_ok fifty)) alice (Fin 50)
                              (completed_donation (host (json_ok fifty)) alice
                                 "ABC123" (Fin 50) fifty)),
                    with_event "new-donation"
                      (event_of (completed_donation (host (json_ok fifty)) alice
                                   "ABC123" (Fin 50) fifty))
                      (with_record (completed_donation (host (json_ok fifty)) alice
                                      "ABC123" (Fin 50) fifty)
                         (with_request alice_request empty))))
      by reflexivity.
    split; [exact P1|].
    destruct (proj1 duplicate_is_refused (host (json_ok fifty)) alice
                (with_event "new-donation"
                   (event_of (completed_donation (host (json_ok fifty)) alice
                                "ABC123" (Fin 50) fifty))
                   (with_record (completed_donation (host (json_ok fifty)) alice
                                   "ABC123" (Fin 50) fifty)
                      (with_request alice_request empty)))
                "ABC123" eq_refl
                (ex_intro _ (completed_donation (host (json_ok fifty)) alice
                               "ABC123" (Fin 50) fifty)
                   (conj (or_introl eq_refl) eq_refl)))
      as (r2 & P2 & S2 & M2).
    specialize (M2 eq_refl). subst r2.
    split; [exact P2|]. split; [reflexivity|].
    exact (proj1 (proj1 (proj2 duplicate_is_refused) _ _ _ _ _ _ _ _ _
                    eq_refl P1 P2)).
  - do 3 eexists. split; [reflexivity|].
    eapply (proj2 (proj2 duplicate_is_refused) (host (json_ok fifty))
              (host (json_ok fifty)) alice alice
              [true; false; true; false; true; false] empty);
      reflexivity.
Defined.

(** C7 (the code departs from it). No call of [processDonation] that fails
    writes anything to the ledger: the block that builds the failed record
    throws before the record exists. In particular, when the redemption
    call is aborted by the timer, the result is the failed result with the
    timeout message, one request has been sent, and the ledger is still
    empty: no record with status failed has been written. *)
Theorem failed_attempt_is_not_recorded :
  (forall (w : World) (c : Claim.t) (st st' : State) (r : Result.t),
      processDonation w c st = (Normal r, st') ->
      Result.success r = false ->
      ledger st' = ledger st)
  /\ processDonation (host aborted) alice empty
     = (Normal (failed_result UpstreamTimeout), with_request alice_request empty)
  /\ ledger (with_request alice_request empty) = [].
Proof.
  split; [|split; reflexivity].
  intros w c st st' r P S.
  destruct (processDonation_outcomes w c st) as (r' & st'' & Q & O).
  rewrite P in Q. injection Q as <- <-.
  destruct O as [(_ & L & _) | (T & _)]; [exact L | congruence].
Qed.

Lemma failed_attempt_is_not_recorded_witness :
  ledger (snd (processDonation (host aborted) alice empty)) = ledger empty.
Proof.
  apply (proj1 failed_attempt_is_not_recorded (host aborted) alice empty
           (with_request alice_request empty) (failed_result UpstreamTimeout));
    reflexivity.
Defined.

Lemma locate_check_redeem_any_store (w : World) (f : Donation.t -> option Error)
      (c : Claim.t) (st : State) :
  locate_check_redeem (with_save_fault w f) c st = locate_check_redeem w c st.
Proof. reflexivity. Qed.

(** C8 (amended). [processDonation] always returns a result, a success flag
    and a message, and never throws. A failure of Locate, of the Duplicate
    check or of Redeem becomes the failed result with that failure's
    message, whatever the store would answer to a write. A write that fails
    after a successful redemption is caught in the same way: the result is
    the failed result with the write failure's message, nothing is recorded
    and no event is emitted. *)
Theorem outcome_is_always_reported (w : World) (c : Claim.t) (st : State) :
  (exists r st', processDonation w c st = (Normal r, st'))
  /\ (forall e st1,
         locate_check_redeem w c st = (Throw e, st1) ->
         forall f, processDonation (with_save_fault w f) c st
                   = (Normal (failed_result e), st1))
  /\ (forall h a d st1 e st2,
         locate_check_redeem w c st = (Normal (h, (a, d)), st1) ->
         save w (completed_donation w c h a d) st1 = (Throw e, st2) ->
         processDonation w c st = (Normal (failed_result e), st2)
         /\ ledger st2 = ledger st /\ emitted st2 = emitted st).
Proof.
  split; [|split].
  - destruct (processDonation_outcomes w c st) as (r & st' & P & _). eauto.
  - intros e st1 L f.
    rewrite processDonation_eq, processDonation_try_steps,
      locate_check_redeem_any_store, L. reflexivity.
  - intros h a d st1 e st2 L S.
    rewrite processDonation_eq, processDonation_try_steps, L, S.
    split; [reflexivity|].
    pose proof (locate_check_redeem_frame w c st) as F. rewrite L in F.
    destruct (save_cases w (completed_donation w c h a d) st1) as [(e' & S')|(S' & _)];
      rewrite S' in S; [|discriminate].
    injection S as _ <-. exact F.
Qed.

Lemma outcome_is_always_reported_witness :
  processDonation (with_save_fault (host aborted) (fun _ => None)) alice empty
  = (Normal (failed_result UpstreamTimeout), with_request alice_request empty)
  /\ processDonation (host_write_down (json_ok fifty)) alice empty
     = (Normal (failed_result (mkError "MongoNetworkError" "connection closed")),
        with_request alice_request empty).
Proof.
  split.
  - apply (proj1 (proj2 (outcome_is_always_reported (host aborted) alice empty))).
    reflexivity.
  - apply (proj2 (proj2 (outcome_is_always_reported
                           (host_write_down (json_ok fifty)) alice empty))
             "ABC123" (Fin 50) fifty (with_request alice_request empty)).
    + reflexivity.
    + reflexivity.
Defined.

(** C8 as stated fails: the endpoint has redeemed the voucher for 50, the
    store rejects the write, and the donor receives a failed result with the
    store's message; with a store that accepts the write, the same claim
    receives a success. *)
Lemma write_fault_overturns_success :
  callTrueMoneyAPI (host_write_down (json_ok fifty)) "ABC123" empty
  = (Normal (Fin 50, fifty), with_request alice_request empty)
  /\ processDonation (host_write_down (json_ok fifty)) alice empty
     = (Normal {| Result.success := false;
                  Result.message := "connection closed";
                  Result.data := None |},
        with_request alice_request empty)
  /\ Result.success
       (match fst (processDonation (host (json_ok fifty)) alice empty) with
        | Normal r => r
        | Throw e => failed_result e
        end) = true.
Proof. repeat split. Qed.

(** * Further properties of the service *)

(** ** The locator's output *)

Lemma first_match_Normal (link h : string) (rs : list Rule) :
  first_match (map regex_of rs) link = Normal h ->
  exists r, In r rs /\ Captures r link h.
Proof.
  induction rs as [|r rs IH]; simpl; [discriminate|].
  destruct (exec (regex_of r) link) as [g|] eqn:E.
  - destruct (Str.truthy g).
    + intros [= ->]. exists r. split; [now left | now apply exec_Captures].
    + intros H. destruct (IH H) as (r' & I & C). exists r'. split; [now right | exact C].
  - intros H. destruct (IH H) as (r' & I & C). exists r'. split; [now right | exact C].
Qed.

(** X1. Whatever the link, a hash returned by [extractVoucherHash] is a
    non-empty run of letters and digits that occurs in the link. *)
Theorem located_hash_is_alphanumeric (link h : string) :
  extractVoucherHash link = Normal h ->
  h <> ""
  /\ Str.all alnum h = true
  /\ exists pre post, link = pre ++ h ++ post.
Proof.
  unfold extractVoucherHash, extractVoucherHash_with. rewrite patterns_rules.
  destruct (first_match (map regex_of rules) link) as [g|] eqn:F; [|discriminate].
  intros [= ->]. apply first_match_Normal in F as (r & _ & pre & post & O & _).
  destruct O as (E & N & A & _). repeat split; auto.
  exists (pre ++ lead r), post. now rewrite append_assoc.
Qed.

Lemma located_hash_is_alphanumeric_witness :
  "ABC123" <> ""
  /\ Str.all alnum "ABC123" = true
  /\ exists pre post, "https://x/campaign/?v=ABC123" = pre ++ "ABC123" ++ post.
Proof.
  apply (located_hash_is_alphanumeric "https://x/campaign/?v=ABC123" "ABC123").
  reflexivity.
Defined.

Lemma span_app (cls : ascii -> bool) (h post : string) :
  Str.all cls h = true ->
  (forall c rest, post = String c rest -> cls c = false) ->
  Str.span cls (h ++ post) = (h, post).
Proof.
  intros A P. induction h as [|x h IH]; simpl in *.
  - destruct post as [|c rest]; simpl; [reflexivity|].
    now rewrite (P c rest eq_refl).
  - apply andb_true_iff in A as [-> A]. now rewrite (IH A).
Qed.

(** X2. From a campaign link [https://gift.truemoney.com/campaign/?v=h],
    with [h] a non-empty run of letters and digits followed by nothing or by
    a character that is neither, the locator gives back exactly [h]. *)
Theorem campaign_link_round_trip (h post : string) :
  h <> "" -> Str.all alnum h = true ->
  (forall c rest, post = String c rest -> alnum c = false) ->
  extractVoucherHash ("https://gift.truemoney.com/campaign/?v=" ++ h ++ post)
  = Normal h.
Proof.
  intros N A P. unfold extractVoucherHash, extractVoucherHash_with, patterns.
  cbn -[plus alnum]. rewrite plus_last, (span_app alnum h post A P). cbn [fst].
  apply truthy_iff in N. rewrite N. cbn. now rewrite N.
Qed.

Lemma campaign_link_round_trip_witness :
  extractVoucherHash ("https://gift.truemoney.com/campaign/?v=" ++ "XyZ42" ++ "&lang=th")
  = Normal "XyZ42".
Proof.
  apply campaign_link_round_trip.
  - discriminate.
  - reflexivity.
  - intros c rest [= <- _]. reflexivity.
Defined.

(** ** The redemption client's verdicts *)

Lemma is_true_iff (v : value) : Val.is_true v = true <-> v = VBool true.
Proof. destruct v as [| |[|]| | | |]; simpl; split; congruence. Qed.

Lemma is_string_iff (s : string) (v : value) :
  Val.is_string s v = true <-> v = VString s.
Proof.
  destruct v; simpl; try (split; congruence).
  rewrite String.eqb_eq. split; congruence.
Qed.

Lemma truthy_voucher (data : value) :
  Val.truthy (field data ["data"; "voucher"]) = true ->
  Val.truthy (field data ["data"]) = true.
Proof.
  unfold field. simpl. destruct (Val.opt data "data"); simpl; auto; discriminate.
Qed.

(** X3. The success probe never throws on a body that is not [null], and it
    accepts the body exactly when one of five signals is there:
    [success === true], [status === 'success'], [status.code === 'SUCCESS'],
    [status.message === 'success'], or a truthy [data.voucher]. A voucher
    object therefore makes a success even beside [success: false]. *)
Theorem success_signals (data : value) :
  Val.nullish data = false ->
  exists s,
    isSuccess data = Normal s
    /\ (Val.truthy s = true <->
        field data ["success"] = VBool true
        \/ field data ["status"] = VString "success"
        \/ field data ["status"; "code"] = VString "SUCCESS"
        \/ field data ["status"; "message"] = VString "success"
        \/ Val.truthy (field data ["data"; "voucher"]) = true).
Proof.
  intros N. unfold isSuccess.
  rewrite !(read_one _ _ N), !(read_opt_field _ _ _ N). cbn [and_then].
  destruct (Val.is_true (field data ["success"])) eqn:S1.
  { exists (VBool true). split; [reflexivity|]. apply is_true_iff in S1. tauto. }
  destruct (Val.is_string "success" (field data ["status"])) eqn:S2.
  { exists (VBool true). split; [reflexivity|]. apply is_string_iff in S2. tauto. }
  destruct (Val.is_string "SUCCESS" (field data ["status"; "code"])) eqn:S3.
  { exists (VBool true). split; [reflexivity|]. apply is_string_iff in S3. tauto. }
  destruct (Val.is_string "success" (field data ["status"; "message"])) eqn:S4.
  { exists (VBool true). split; [reflexivity|]. apply is_string_iff in S4. tauto. }
  assert (F1 : field data ["success"] <> VBool true)
    by (intros E; apply is_true_iff in E; congruence).
  assert (F2 : field data ["status"] <> VString "success")
    by (intros E; apply is_string_iff in E; congruence).
  assert (F3 : field data ["status"; "code"] <> VString "SUCCESS")
    by (intros E; apply is_string_iff in E; congruence).
  assert (F4 : field data ["status"; "message"] <> VString "success")
    by (intros E; apply is_string_iff in E; congruence).
  destruct (Val.truthy (field data ["data"])) eqn:D.
  - destruct (Val.truthy (field data ["data"; "voucher"])) eqn:V.
    + rewrite (read_field _ _ V). eexists. split; [reflexivity|]. tauto.
    + exists (field data ["data"; "voucher"]). split.
      * simpl. rewrite (get_normal _ _ N).
        change (Val.opt data "data") with (field data ["data"]).
        destruct (Val.nullish (field data ["data"])) eqn:Nd.
        -- apply (field_nullish _ []) in Nd. simpl in Nd. unfold field in Nd, D.
           simpl in Nd, D. congruence.
        -- simpl. now rewrite (get_normal _ _ Nd).
      * rewrite V. intuition congruence.
  - exists (field data ["data"]). split; [reflexivity|]. rewrite D.
    split; [discriminate|]. intros [H|[H|[H|[H|H]]]]; try contradiction.
    apply truthy_voucher in H. congruence.
Qed.

Lemma success_signals_witness :
  exists s, isSuccess flag_false_with_voucher = Normal s /\ Val.truthy s = true.
Proof.
  destruct (success_signals flag_false_with_voucher eq_refl) as (s & E & T).
  exists s. split; [exact E|]. apply T. do 4 right. reflexivity.
Defined.

Lemma errorMsg_order (data : value) :
  Val.nullish data = false ->
  errorMsg data =
  Normal (match find Val.truthy (map (field data) rejection_order) with
          | Some m => m
          | None => VString (message UpstreamRejected)
          end).
Proof.
  intros N. unfold errorMsg, rejection_order.
  rewrite !(read_one _ _ N), !(read_opt_field _ _ _ N). cbn [and_then map find].
  destruct (Val.truthy (field data ["message"])); [reflexivity|].
  destruct (Val.truthy (field data ["error"])); [reflexivity|].
  destruct (Val.truthy (field data ["status"; "message"])); reflexivity.
Qed.

(** X4. When the success probe does not accept the body, the call throws an
    error whose text is the first truthy one of [data.message],
    [data.error], [data.status.message], converted to a string, and the
    generic rejection text when none is truthy. With a text that is a
    string, [callTrueMoneyAPI] throws exactly that text, after one request. *)
Theorem rejection_text (w : World) (data s : value) :
  isSuccess data = Normal s -> Val.truthy s = false ->
  normalize w data =
  match find Val.truthy (map (field data) rejection_order) with
  | Some m => text <~ ToString (Number_toString w) m ;; Throw (new_Error text)
  | None => Throw UpstreamRejected
  end
  /\ forall voucherHash mobile st response reason,
       TRUEMONEY_MOBILE w = Some mobile -> mobile <> "" ->
       fetch w {| voucherCode := voucherHash; mobileNumber := mobile |}
         = Normal response ->
       ok response = true -> json response = Normal data ->
       find Val.truthy (map (field data) rejection_order) = Some (VString reason) ->
       callTrueMoneyAPI w voucherHash st =
       (Throw (new_Error reason),
        with_request {| voucherCode := voucherHash; mobileNumber := mobile |} st).
Proof.
  intros S T.
  assert (N : Val.nullish data = false).
  { destruct data; try reflexivity; discriminate. }
  assert (E : normalize w data =
              match find Val.truthy (map (field data) rejection_order) with
              | Some m => text <~ ToString (Number_toString w) m ;; Throw (new_Error text)
              | None => Throw UpstreamRejected
              end).
  { unfold normalize. rewrite S. cbn [and_then]. rewrite T. cbn [negb].
    rewrite (errorMsg_order data N). cbn [and_then].
    destruct (find Val.truthy (map (field data) rejection_order)); reflexivity. }
  split; [exact E|].
  intros voucherHash mobile st response reason C M F O J R.
  rewrite (callTrueMoneyAPI_answered w voucherHash mobile st response data C M F O J).
  rewrite E, R. reflexivity.
Qed.

Lemma rejection_text_witness :
  callTrueMoneyAPI (host (json_ok expired)) "ABC123" empty
  = (Throw (new_Error "Voucher expired"), with_request alice_request empty).
Proof.
  apply (proj2 (rejection_text (host (json_ok expired)) expired VUndefined
                  eq_refl eq_refl)
           "ABC123" "0812345678" empty
           {| status := 200; text := Normal ""; json := Normal expired |});
    try reflexivity.
  discriminate.
Defined.

(** A failure of the redemption call, for a link whose hash is new, is what
    [processDonation] reports. *)
Lemma redeem_failure_reported (w : World) (c : Claim.t) (st st1 : State)
      (h : string) (e : Error) :
  extractVoucherHash (Claim.voucherLink c) = Normal h ->
  findOne_fault w = None ->
  existsb (Donation.has_hash h) (ledger st) = false ->
  callTrueMoneyAPI w h st = (Throw e, st1) ->
  processDonation w c st = (Normal (failed_result e), st1).
Proof.
  intros X Q D A.
  now rewrite processDonation_eq, processDonation_try_steps,
    locate_check_redeem_eq, X, Q, D, A.
Qed.

(** X5. When the endpoint answers with a status outside 200..299, the
    donation fails with the message [API Error: <status> - <body text>],
    whatever the body says; one request has been sent, nothing is written
    and nothing is published. *)
Theorem http_error_fails_the_donation (w : World) (c : Claim.t) (st : State)
        (h mobile errorText : string) (response : Response) :
  extractVoucherHash (Claim.voucherLink c) = Normal h ->
  findOne_fault w = None ->
  existsb (Donation.has_hash h) (ledger st) = false ->
  TRUEMONEY_MOBILE w = Some mobile -> mobile <> "" ->
  fetch w {| voucherCode := h; mobileNumber := mobile |} = Normal response ->
  ok response = false -> text response = Normal errorText ->
  processDonation w c st =
  (Normal {| Result.success := false;
             Result.message :=
               "API Error: " ++ Number_toString w (Num.of_Z (status response))
               ++ " - " ++ errorText;
             Result.data := None |},
   with_request {| voucherCode := h; mobileNumber := mobile |} st).
Proof.
  intros X Q D C M F O T.
  apply (redeem_failure_reported w c st _ h
           (new_Error ("API Error: " ++ Number_toString w (Num.of_Z (status response))
                       ++ " - " ++ errorText)) X Q D).
  unfold callTrueMoneyAPI. rewrite C.
  destruct mobile as [|m0 mobile]; [congruence|].
  unfold try_catch, bind, do_fetch, lift, throw. rewrite F, O. simpl.
  now rewrite T.
Qed.

Lemma http_error_fails_the_donation_witness :
  processDonation (host bad_gateway) alice empty =
  (Normal {| Result.success := false;
             Result.message := "API Error: 502 - Bad Gateway";
             Result.data := None |},
   with_request alice_request empty).
Proof.
  apply (http_error_fails_the_donation (host bad_gateway) alice empty
           "ABC123" "0812345678" "Bad Gateway"
           {| status := 502;
              text := Normal "Bad Gateway";
              json := Throw (mkError "SyntaxError" "Unexpected token B in JSON") |});
    try reflexivity.
  discriminate.
Defined.

(** X6. When [fetch] rejects, the donation fails after one request, with
    nothing written: with the timeout message when the rejection is named
    [AbortError], and with the rejection's own message otherwise. *)
Theorem network_fault_fails_the_donation (w : World) (c : Claim.t) (st : State)
        (h mobile : string) (fault : Error) :
  extractVoucherHash (Claim.voucherLink c) = Normal h ->
  findOne_fault w = None ->
  existsb (Donation.has_hash h) (ledger st) = false ->
  TRUEMONEY_MOBILE w = Some mobile -> mobile <> "" ->
  fetch w {| voucherCode := h; mobileNumber := mobile |} = Throw fault ->
  processDonation w c st =
  (Normal (failed_result (if String.eqb (name fault) "AbortError"
                          then UpstreamTimeout else fault)),
   with_request {| voucherCode := h; mobileNumber := mobile |} st).
Proof.
  intros X Q D C M F.
  apply (redeem_failure_reported w c st _ h _ X Q D).
  unfold callTrueMoneyAPI. rewrite C.
  destruct mobile as [|m0 mobile]; [congruence|].
  unfold try_catch, bind, do_fetch, lift, throw. rewrite F.
  destruct (String.eqb (name fault) "AbortError"); reflexivity.
Qed.

Lemma network_fault_fails_the_donation_witness :
  processDonation (host (Throw (mkError "TypeError" "fetch failed"))) alice empty
  = (Normal (failed_result (mkError "TypeError" "fetch failed")),
     with_request alice_request empty).
Proof.
  apply (network_fault_fails_the_donation
           (host (Throw (mkError "TypeError" "fetch failed"))) alice empty
           "ABC123" "0812345678" (mkError "TypeError" "fetch failed"));
    try reflexivity.
  discriminate.
Defined.

(** X7. Without the account variable [TRUEMONEY_MOBILE] (unset or empty), a
    donation for a new voucher fails with the configuration message, and
    no request is sent: the collaborators are left untouched. *)
Theorem unconfigured_account_sends_nothing (w : World) (c : Claim.t) (st : State)
        (h : string) :
  extractVoucherHash (Claim.voucherLink c) = Normal h ->
  findOne_fault w = None ->
  existsb (Donation.has_hash h) (ledger st) = false ->
  TRUEMONEY_MOBILE w = None \/ TRUEMONEY_MOBILE w = Some "" ->
  processDonation w c st = (Normal (failed_result ConfigurationError), st).
Proof.
  intros X Q D C.
  apply (redeem_failure_reported w c st st h ConfigurationError X Q D).
  unfold callTrueMoneyAPI. destruct C as [-> | ->]; reflexivity.
Qed.

Lemma unconfigured_account_sends_nothing_witness :
  processDonation host_unconfigured alice empty
  = (Normal (failed_result ConfigurationError), empty).
Proof.
  apply (unconfigured_account_sends_nothing host_unconfigured alice empty "ABC123");
    try reflexivity.
  now left.
Defined.

(** ** What a call of the pipeline does to its collaborators *)

(** The redemption client either sends nothing, or sends the one request
    that carries the hash and the configured account. *)
Lemma callTrueMoneyAPI_state (w : World) (h : string) (st : State) :
  snd (callTrueMoneyAPI w h st) = st
  \/ exists mobile,
       TRUEMONEY_MOBILE w = Some mobile /\ mobile <> ""
       /\ snd (callTrueMoneyAPI w h st)
          = with_request {| voucherCode := h; mobileNumber := mobile |} st.
Proof.
  unfold callTrueMoneyAPI.
  destruct (TRUEMONEY_MOBILE w) as [[|m0 mobile]|]; try (now left).
  right. exists (String m0 mobile). split; [reflexivity|]. split; [discriminate|].
  unfold try_catch, bind, do_fetch, lift, throw.
  destruct (fetch w _) as [response|e].
  - destruct (ok response); simpl.
    + destruct (json response) as [data|e].
      * destruct (normalize w data) as [r|e]; [reflexivity|].
        destruct (String.eqb (name e) "AbortError"); reflexivity.
      * destruct (String.eqb (name e) "AbortError"); reflexivity.
    + destruct (text response) as [t|e]; simpl;
        [|destruct (String.eqb (name e) "AbortError")]; reflexivity.
  - destruct (String.eqb (name e) "AbortError"); reflexivity.
Qed.

(** A success of [processDonation], taken apart. *)
Lemma processDonation_success_inv (w : World) (c : Claim.t) (st st' : State)
      (r : Result.t) :
  processDonation w c st = (Normal r, st') -> Result.success r = true ->
  exists h a d st1,
    extractVoucherHash (Claim.voucherLink c) = Normal h
    /\ existsb (Donation.has_hash h) (ledger st) = false
    /\ callTrueMoneyAPI w h st = (Normal (a, d), st1)
    /\ r = success_result w c a (completed_donation w c h a d)
    /\ st' = with_event "new-donation" (event_of (completed_donation w c h a d))
               (with_record (completed_donation w c h a d) st1).
Proof.
  rewrite processDonation_eq, processDonation_try_steps.
  destruct (locate_check_redeem w c st) as [[[h [a d]]|e] st1] eqn:L.
  - apply locate_check_redeem_Normal in L as (X & D & A).
    destruct (save_cases w (completed_donation w c h a d) st1) as [(e & S)|(S & _)];
      rewrite S.
    + intros [= <- _]. discriminate.
    + intros [= <- <-] _. exists h, a, d, st1. auto.
  - intros [= <- _]. discriminate.
Qed.

(** A failure of [processDonation], taken apart. *)
Lemma processDonation_failure_inv (w : World) (c : Claim.t) (st st' : State)
      (r : Result.t) :
  processDonation w c st = (Normal r, st') -> Result.success r = false ->
  (exists e, r = failed_result e)
  /\ ledger st' = ledger st /\ emitted st' = emitted st.
Proof.
  rewrite processDonation_eq, processDonation_try_steps.
  pose proof (locate_check_redeem_frame w c st) as [FL FE].
  destruct (locate_check_redeem w c st) as [[[h [a d]]|e] st1] eqn:L; simpl in *.
  - destruct (save_cases w (completed_donation w c h a d) st1) as [(e & S)|(S & _)];
      rewrite S.
    + intros [= <- <-] _. eauto.
    + intros [= <- _]. discriminate.
  - intros [= <- <-] _. eauto.
Qed.

(** Persist and Publish send nothing to the redemption endpoint. *)
Lemma processDonation_requests (w : World) (c : Claim.t) (st : State) :
  requests (snd (processDonation w c st))
  = requests (snd (locate_check_redeem w c st)).
Proof.
  rewrite processDonation_eq, processDonation_try_steps.
  destruct (locate_check_redeem w c st) as [[[h [a d]]|e] st1]; [|reflexivity].
  destruct (save_cases w (completed_donation w c h a d) st1) as [(e & S)|(S & _)];
    rewrite S; reflexivity.
Qed.

(** X8. A call of [processDonation] sends at most one request to the
    redemption endpoint. When it sends one, the link held a hash that was
    not in the ledger, the lookup had answered, the account was configured,
    and the request carries exactly that hash and that account. *)
Theorem at_most_one_request (w : World) (c : Claim.t) (st : State) :
  requests (snd (processDonation w c st)) = requests st
  \/ exists h mobile,
       extractVoucherHash (Claim.voucherLink c) = Normal h
       /\ findOne_fault w = None
       /\ existsb (Donation.has_hash h) (ledger st) = false
       /\ TRUEMONEY_MOBILE w = Some mobile /\ mobile <> ""
       /\ requests (snd (processDonation w c st))
          = (requests st ++ [{| voucherCode := h; mobileNumber := mobile |}])%list.
Proof.
  rewrite processDonation_requests, locate_check_redeem_eq.
  destruct (extractVoucherHash (Claim.voucherLink c)) as [h|e]; [|now left].
  destruct (findOne_fault w); [now left|].
  destruct (existsb (Donation.has_hash h) (ledger st)) eqn:D; [now left|].
  pose proof (callTrueMoneyAPI_state w h st) as R.
  destruct (callTrueMoneyAPI w h st) as [[r|e] st1]; simpl in *;
    (destruct R as [-> | (mobile & C & M & ->)];
     [now left | right; exists h, mobile; auto 10]).
Qed.

(** X9. A successful call publishes exactly one [new-donation] event; its
    payload is the data of the result and is read off the record that the
    call appended: the record's id, its trimmed donor name and message, its
    amount and its timestamp. A failed call publishes nothing and returns
    no data. *)
Theorem success_is_published_once (w : World) (c : Claim.t) (st st' : State)
        (r : Result.t) :
  processDonation w c st = (Normal r, st') ->
  (Result.success r = true ->
   exists d,
     ledger st' = (ledger st ++ [d])%list
     /\ emitted st' = (emitted st ++ [("new-donation", event_of d)])%list
     /\ Result.data r = Some (event_of d)
     /\ Donation.donorName d = trim (Claim.donorName c)
     /\ Donation.message d = trim (Claim.message c)
     /\ Donation.voucherLink d = Claim.voucherLink c
     /\ Donation.status d = Donation.completed)
  /\ (Result.success r = false ->
      emitted st' = emitted st /\ Result.data r = None).
Proof.
  intros P. split; intros S.
  - destruct (processDonation_success_inv w c st st' r P S)
      as (h & a & d & st1 & _ & _ & A & -> & ->).
    pose proof (callTrueMoneyAPI_frame w h st) as [FL FE]. rewrite A in FL, FE.
    simpl in FL, FE. exists (completed_donation w c h a d).
    simpl. rewrite FL, FE. repeat split.
  - destruct (processDonation_failure_inv w c st st' r P S) as ((e & ->) & _ & E).
    now split.
Qed.

Lemma success_is_published_once_witness :
  exists d,
    ledger after_alice = (ledger empty ++ [d])%list
    /\ emitted after_alice = (emitted empty ++ [("new-donation", event_of d)])%list
    /\ Donation.donorName d = trim "Alice".
Proof.
  destruct (proj1 (success_is_published_once (host (json_ok fifty)) alice empty
                     after_alice
                     (success_result (host (json_ok fifty)) alice (Fin 50)
                        (completed_donation (host (json_ok fifty)) alice "ABC123"
                           (Fin 50) fifty))
                     eq_refl) eq_refl)
    as (d & L & E & _ & N & _).
  exists d. auto.
Defined.

(** ** The ledger over many calls *)

Lemma unknown_hash (h : string) (l : list Donation.t) :
  existsb (Donation.has_hash h) l = false -> ~ In h (map Donation.voucherHash l).
Proof.
  intros X I. apply in_map_iff in I as (d & E & I).
  assert (K : existsb (Donation.has_hash h) l = true)
    by (apply known_hash; eauto).
  congruence.
Qed.

Lemma NoDup_snoc {A : Type} (l : list A) (x : A) :
  NoDup l -> ~ In x l -> NoDup (l ++ [x]).
Proof.
  induction 1 as [|y l N _ IH]; intros I; simpl.
  - constructor; [intros [] | constructor].
  - constructor.
    + rewrite in_app_iff. intros [H | [H | []]]; [contradiction|].
      apply I. now left.
    + apply IH. intros H. apply I. now right.
Qed.

(** One call: the ledger keeps its records, gains at most one, a completed
    one, and stays in order. *)
Lemma processDonation_keeps_ledger (w : World) (c : Claim.t) (st : State) :
  exists added,
    ledger (snd (processDonation w c st)) = (ledger st ++ added)%list
    /\ (length added <= 1)%nat
    /\ Forall (fun d => Donation.status d = Donation.completed) added
    /\ (ledger_ok (ledger st) -> ledger_ok (ledger (snd (processDonation w c st)))).
Proof.
  destruct (processDonation_outcomes w c st) as (r & st' & P & _). rewrite P.
  cbn [snd]. destruct (Result.success r) eqn:S.
  - destruct (processDonation_success_inv w c st st' r P S)
      as (h & a & d & st1 & _ & D & A & _ & ->).
    pose proof (callTrueMoneyAPI_frame w h st) as [FL _]. rewrite A in FL.
    simpl in FL. exists [completed_donation w c h a d]. simpl. rewrite FL.
    repeat split; auto.
    + destruct H as [N _]. rewrite map_app. simpl.
      apply NoDup_snoc; [exact N | now apply unknown_hash].
    + destruct H as [_ Hpos]. intros x I T. apply in_app_iff in I as [I | [<- | []]].
      * now apply Hpos.
      * simpl. apply callTrueMoneyAPI_Normal in A as (data & Nz).
        apply normalize_Normal in Nz as (_ & _ & C). now apply positive_check.
  - destruct (processDonation_failure_inv w c st st' r P S) as (_ & L & _).
    exists []. simpl. rewrite L, app_nil_r.
    split; [reflexivity|]. split; [lia|]. split; [constructor | auto].
Qed.

(** X10. Over any sequence of calls of [processDonation], whatever the
    hosts answer, the ledger is only appended to: it gains at most one
    record per call, all of them completed. And a ledger in which no two
    records share a voucher hash and every completed record has a positive
    amount is still such a ledger afterwards. *)
Theorem ledger_is_append_only (calls : list (World * Claim.t)) (st : State) :
  (exists added,
      ledger (run_all calls st) = (ledger st ++ added)%list
      /\ (length added <= length calls)%nat
      /\ Forall (fun d => Donation.status d = Donation.completed) added)
  /\ (ledger_ok (ledger st) -> ledger_ok (ledger (run_all calls st))).
Proof.
  revert st. induction calls as [|[w c] calls IH]; intros st; simpl.
  - split; [|auto]. exists []. rewrite app_nil_r. repeat split; auto.
  - destruct (processDonation_keeps_ledger w c st) as (one & E1 & L1 & F1 & K1).
    destruct (IH (snd (processDonation w c st))) as ((more & E2 & L2 & F2) & K2).
    split; [|auto].
    exists (one ++ more)%list. rewrite E2, E1, <- List.app_assoc, length_app.
    repeat split; [lia | now apply Forall_app].
Qed.

Lemma ledger_is_append_only_witness :
  ledger_ok (ledger (run_all [(host (json_ok fifty), alice);
                              (host (json_ok fifty), alice);
                              (host_later (json_ok flag_false_with_voucher), bob)]
                       empty)).
Proof.
  apply (proj2 (ledger_is_append_only _ empty)).
  split; [constructor | intros d []].
Defined.

(** ** The dashboard reads *)

Lemma insert_desc_perm (d : Donation.t) (l : list Donation.t) :
  Permutation (insert_desc d l) (d :: l).
Proof.
  induction l as [|x l IH]; simpl; [reflexivity|].
  destruct (Donation.timestamp x <=? Donation.timestamp d)%Z; [reflexivity|].
  rewrite IH. apply perm_swap.
Qed.

Lemma sort_desc_perm (l : list Donation.t) : Permutation (sort_desc l) l.
Proof.
  induction l as [|d l IH]; simpl; [reflexivity|].
  rewrite insert_desc_perm. now constructor.
Qed.

Lemma insert_desc_sorted (d : Donation.t) (l : list Donation.t) :
  Sorted not_older l -> Sorted not_older (insert_desc d l).
Proof.
  induction 1 as [|x l S IH H]; simpl.
  - repeat constructor.
  - destruct (Donation.timestamp x <=? Donation.timestamp d)%Z eqn:C.
    + constructor; [now constructor|]. constructor. unfold not_older. lia.
    + constructor; [exact IH|].
      destruct l as [|y l]; simpl.
      * constructor. unfold not_older. lia.
      * destruct (Donation.timestamp y <=? Donation.timestamp d)%Z.
        -- constructor. unfold not_older. lia.
        -- constructor. now inversion H.
Qed.

Lemma sort_desc_sorted (l : list Donation.t) : StronglySorted not_older (sort_desc l).
Proof.
  apply Sorted_StronglySorted.
  - intros a b c. unfold not_older. lia.
  - induction l as [|d l IH]; simpl; [constructor | now apply insert_desc_sorted].
Qed.

Lemma in_first (A : Type) (n : nat) (l : list A) (x : A) :
  In x (firstn n l) -> In x l.
Proof.
  intros I. rewrite <- (firstn_skipn n l). apply in_app_iff. now left.
Qed.

Lemma in_rest (A : Type) (n : nat) (l : list A) (x : A) :
  In x (skipn n l) -> In x l.
Proof.
  intros I. rewrite <- (firstn_skipn n l). apply in_app_iff. now right.
Qed.

Lemma StronglySorted_split {A : Type} (R : A -> A -> Prop) (n : nat) (l : list A) :
  StronglySorted R l ->
  StronglySorted R (firstn n l)
  /\ forall a b, In a (firstn n l) -> In b (skipn n l) -> R a b.
Proof.
  intros S. revert n. induction S as [|x l S IH F]; intros n.
  - rewrite firstn_nil, skipn_nil. split; [constructor | intros a b []].
  - destruct n as [|n]; simpl.
    + split; [constructor | intros a b []].
    + destruct (IH n) as [S1 S2]. split.
      * constructor; [exact S1|]. rewrite Forall_forall in *.
        intros y I. apply F. eapply in_first; eauto.
      * intros a b [<- | I] J.
        -- rewrite Forall_forall in F. apply F. eapply in_rest; eauto.
        -- now apply S2.
Qed.

(** X11. When the read answers, [getRecentDonations] lists only completed
    records of the ledger, newest first, at most [|limit|] of them for a
    non-zero limit; a completed record that is left out is not newer than
    any listed one; and the ledger is left as it was. *)
Theorem recent_are_newest_completed (w : World) (limit : Z) (st : State) :
  find_fault w = None ->
  exists docs,
    getRecentDonations w limit st = (Normal (map Recent.of_doc docs), st)
    /\ (forall d, In d docs ->
                  In d (ledger st) /\ Donation.status d = Donation.completed)
    /\ StronglySorted not_older docs
    /\ (limit <> 0%Z -> (length docs <= Z.abs_nat limit)%nat)
    /\ (forall d d', In d (ledger st) -> Donation.status d = Donation.completed ->
                     ~ In d docs -> In d' docs -> not_older d' d).
Proof.
  intros F.
  set (sorted := sort_desc (filter Donation.is_completed (ledger st))).
  assert (Hin : forall d, In d sorted <->
                          In d (ledger st) /\ Donation.status d = Donation.completed).
  { intros d. unfold sorted. split.
    - intros I. apply (Permutation_in _ (sort_desc_perm _)) in I.
      apply filter_In in I as [I C]. split; [exact I|].
      unfold Donation.is_completed in C. now destruct (Donation.status d).
    - intros [I C]. apply (Permutation_in _ (Permutation_sym (sort_desc_perm _))).
      apply filter_In. split; [exact I|]. unfold Donation.is_completed.
      now rewrite C. }
  exists (limit_to limit sorted). split.
  { unfold getRecentDonations, try_catch, bind, find_recent, ret. now rewrite F. }
  unfold limit_to. destruct (limit =? 0)%Z eqn:Z0.
  - apply Z.eqb_eq in Z0. repeat split.
    + now apply Hin.
    + now apply Hin.
    + apply sort_desc_sorted.
    + congruence.
    + intros d d' I C N _. destruct N. apply Hin. auto.
  - destruct (StronglySorted_split not_older (Z.abs_nat limit) sorted
                (sort_desc_sorted _)) as [S1 S2].
    repeat split.
    + apply Hin. eapply in_first; eauto.
    + apply Hin. eapply in_first; eauto.
    + exact S1.
    + intros _. apply firstn_le_length.
    + intros d d' I C N I'. apply S2; [exact I'|].
      assert (J : In d sorted) by (apply Hin; auto).
      rewrite <- (firstn_skipn (Z.abs_nat limit) sorted) in J.
      apply in_app_iff in J as [J | J]; [contradiction | exact J].
Qed.

Lemma recent_are_newest_completed_witness :
  exists docs,
    getRecentDonations (host aborted) 1
      (run_all [(host (json_ok fifty), alice);
                (host_later (json_ok flag_false_with_voucher), bob)] empty)
    = (Normal (map Recent.of_doc docs),
       run_all [(host (json_ok fifty), alice);
                (host_later (json_ok flag_false_with_voucher), bob)] empty)
    /\ (length docs <= 1)%nat.
Proof.
  destruct (recent_are_newest_completed (host aborted) 1
              (run_all [(host (json_ok fifty), alice);
                        (host_later (json_ok flag_false_with_voucher), bob)] empty)
              eq_refl)
    as (docs & E & _ & _ & L & _).
  exists docs. split; [exact E|]. apply L. discriminate.
Defined.

Lemma reads_follow_ledger (w : World) (limit : Z) (st st' : State) :
  ledger st' = ledger st ->
  fst (getRecentDonations w limit st') = fst (getRecentDonations w limit st)
  /\ fst (getDonationStats w st') = fst (getDonationStats w st).
Proof.
  intros L.
  unfold getRecentDonations, getDonationStats, try_catch, bind, find_recent,
    aggregate, ret.
  rewrite L. split.
  - destruct (find_fault w); reflexivity.
  - destruct (aggregate_fault w); reflexivity.
Qed.

(** X12. A donation that fails leaves the dashboard as it was: the recent
    list, for every limit, and the statistics read after the failed call
    are those read before it. *)
Theorem failed_donation_leaves_dashboard (w w' : World) (c : Claim.t)
        (st st' : State) (r : Result.t) (limit : Z) :
  processDonation w c st = (Normal r, st') ->
  Result.success r = false ->
  fst (getRecentDonations w' limit st') = fst (getRecentDonations w' limit st)
  /\ fst (getDonationStats w' st') = fst (getDonationStats w' st).
Proof.
  intros P S. apply reads_follow_ledger.
  now destruct (processDonation_failure_inv w c st st' r P S) as (_ & L & _).
Qed.

Lemma failed_donation_leaves_dashboard_witness :
  fst (getRecentDonations (host aborted) 10
         (snd (processDonation (host aborted) bob after_alice)))
  = fst (getRecentDonations (host aborted) 10 after_alice)
  /\ fst (getDonationStats (host aborted)
            (snd (processDonation (host aborted) bob after_alice)))
     = fst (getDonationStats (host aborted) after_alice).
Proof.
  apply (failed_donation_leaves_dashboard (host aborted) (host aborted) bob
           after_alice _ (failed_result UpstreamTimeout) 10);
    reflexivity.
Defined.





(** ** Failing early, and the words of a success *)

(** X14. A link in which no hash is found, the empty link among them,
    fails with the invalid-format message; and when the duplicate lookup
    itself faults, the donation fails with the store's message. In both
    cases nothing is sent to the redemption endpoint, nothing is written
    and nothing is published. *)
Theorem early_failures_touch_nothing (w : World) (c : Claim.t) (st : State) :
  (forall e, extractVoucherHash (Claim.voucherLink c) = Throw e ->
             processDonation w c st
             = (Normal (failed_result InvalidVoucherFormat), st))
  /\ (forall h e, extractVoucherHash (Claim.voucherLink c) = Normal h ->
                  findOne_fault w = Some e ->
                  processDonation w c st = (Normal (failed_result e), st)).
Proof.
  split.
  - intros e X.
    assert (e = InvalidVoucherFormat) as ->.
    { unfold extractVoucherHash, extractVoucherHash_with in X.
      destruct (first_match patterns (Claim.voucherLink c)); congruence. }
    now rewrite processDonation_eq, processDonation_try_steps,
      locate_check_redeem_eq, X.
  - intros h e X Q.
    now rewrite processDonation_eq, processDonation_try_steps,
      locate_check_redeem_eq, X, Q.
Qed.

Lemma early_failures_touch_nothing_witness :
  processDonation (host (json_ok fifty))
    {| Claim.voucherLink := ""; Claim.donorName := "Alice";
       Claim.message := ""; Claim.ipAddress := "203.0.113.7" |} empty
  = (Normal (failed_result InvalidVoucherFormat), empty)
  /\ processDonation host_read_down alice empty
     = (Normal (failed_result (mkError "MongoNetworkError" "connection closed")),
        empty).
Proof.
  split.
  - apply (proj1 (early_failures_touch_nothing (host (json_ok fifty))
                    {| Claim.voucherLink := ""; Claim.donorName := "Alice";
                       Claim.message := ""; Claim.ipAddress := "203.0.113.7" |}
                    empty) InvalidVoucherFormat).
    reflexivity.
  - apply (proj2 (early_failures_touch_nothing host_read_down alice empty)
             "ABC123"); reflexivity.
Defined.

(** X15. A body that is not [null] and has none of the properties the
    client reads (a string, a number, a boolean, an array, an empty object)
    is rejected with the generic rejection text; a [null] body makes the
    first property read throw a [TypeError]. *)
Theorem bare_body_is_rejected (w : World) (data : value) :
  (Val.nullish data = false -> (forall k, Val.opt data k = VUndefined) ->
   normalize w data = Throw UpstreamRejected)
  /\ (data = VNull ->
      normalize w data
      = Throw (new_TypeError "Cannot read properties of null (reading 'success')")).
Proof.
  split.
  - intros N U. unfold normalize, isSuccess, errorMsg, read_opt, read.
    rewrite !(get_normal _ _ N), !U. reflexivity.
  - intros ->. reflexivity.
Qed.

Lemma bare_body_is_rejected_witness :
  normalize (host aborted) (VArray [VNumber (Fin 50)]) = Throw UpstreamRejected
  /\ normalize (host aborted) VNull
     = Throw (new_TypeError "Cannot read properties of null (reading 'success')").
Proof.
  split.
  - apply (proj1 (bare_body_is_rejected (host aborted) (VArray [VNumber (Fin 50)])));
      reflexivity.
  - apply (proj2 (bare_body_is_rejected (host aborted) VNull)). reflexivity.
Defined.

(** X16. The message of every successful result contains the donor name as
    it was submitted and the amount of the appended record as the host's
    [toLocaleString] prints it. *)
Theorem success_message_names_donor_and_amount (w : World) (c : Claim.t)
        (st st' : State) (r : Result.t) :
  processDonation w c st = (Normal r, st') ->
  Result.success r = true ->
  exists d,
    ledger st' = (ledger st ++ [d])%list
    /\ Str.includes (Claim.donorName c) (Result.message r) = true
    /\ Str.includes (Number_toLocaleString w (Donation.amount d)) (Result.message r)
       = true.
Proof.
  intros P S.
  destruct (processDonation_success_inv w c st st' r P S)
    as (h & a & d & st1 & _ & _ & A & -> & ->).
  pose proof (callTrueMoneyAPI_frame w h st) as [FL _]. rewrite A in FL.
  simpl in FL. exists (completed_donation w c h a d). simpl. rewrite FL.
  split; [reflexivity|]. apply thanks_includes.
Qed.

Lemma success_message_names_donor_and_amount_witness :
  exists d,
    ledger (snd (processDonation (host_later (json_ok flag_false_with_voucher)) bob
                   after_alice))
    = (ledger after_alice ++ [d])%list
    /\ Str.includes "  Bob "
         (thanks (host_later (json_ok flag_false_with_voucher)) "  Bob " (Fin 20))
       = true
    /\ Str.includes
         (Number_toLocaleString (host_later (json_ok flag_false_with_voucher))
            (Donation.amount d))
         (thanks (host_later (json_ok flag_false_with_voucher)) "  Bob " (Fin 20))
       = true.
Proof.
  apply (success_message_names_donor_and_amount
           (host_later (json_ok flag_false_with_voucher)) bob after_alice
           (snd (processDonation (host_later (json_ok flag_false_with_voucher)) bob
                   after_alice))
           (success_result (host_later (json_ok flag_false_with_voucher)) bob
              (Fin 20)
              (completed_donation (host_later (json_ok flag_false_with_voucher))
                 bob "XyZ42" (Fin 20) flag_false_with_voucher)));
    reflexivity.
Defined.
